(** * A shallow embedding of the arXiv paper store (problem2)

    The development follows the three Python modules of [problem2]:
    - [load_data.py]: the keyword extractor, the fan-out of one paper into
      DynamoDB items ([transform_paper]) and the batched write;
    - [query_papers.py]: the five command-line access patterns;
    - [api_server.py]: the HTTP query functions with their scan fallback.

    The DynamoDB table that the program talks to through boto3 is modelled
    by its contract: a finite map keyed by the primary key [(PK, SK)],
    [put_item] replacing the item stored under a key, [query] returning the
    items of one partition ordered by sort key, after the validation of its
    parameters, and [scan] filtering the whole table. An answer is one
    page: throughput, paging of answers beyond the page size, the splitting
    of a batch into requests and the delay of index updates are not part of
    the model.

    Text is modelled over ASCII: a character is a word character when it is
    a letter, a digit or the underscore, and [lower] maps [A-Z] to [a-z]. *)

From Stdlib Require Import String Ascii ZArith Lia Bool.
From stdpp Require Import base gmap strings list sorting.

Local Open Scope string_scope.
Local Open Scope list_scope.
#[local] Arguments String.append : simpl nomatch.

(** ** Lexicographic order on strings (the order of DynamoDB sort keys) *)

Module StrOrder.

Definition le (a b : string) : Prop := String.leb a b = true.
Definition lt (a b : string) : Prop := String.ltb a b = true.

#[global] Instance le_dec a b : Decision (le a b).
Proof. unfold le. apply _. Defined.

#[global] Instance lt_dec a b : Decision (lt a b).
Proof. unfold lt. apply _. Defined.

End StrOrder.

(** ** load_data.py: keyword extraction *)

Module Keywords.

(** [STOPWORDS] of load_data.py, a Python set of strings. *)
Definition STOPWORDS : gset string := list_to_set
  [ "the"; "a"; "an"; "and"; "or"; "but"; "in"; "on"; "at"; "to"; "for";
    "of"; "with"; "by"; "from"; "up"; "about"; "into"; "through"; "during";
    "is"; "are"; "was"; "were"; "be"; "been"; "being"; "have"; "has"; "had";
    "do"; "does"; "did"; "will"; "would"; "could"; "should"; "may"; "might";
    "can"; "this"; "that"; "these"; "those"; "we"; "our"; "use"; "using";
    "based"; "approach"; "method"; "paper"; "propose"; "proposed"; "show" ].

Definition in_range (lo hi : nat) (c : ascii) : bool :=
  (lo <=? nat_of_ascii c)%nat && (nat_of_ascii c <=? hi)%nat.

Definition is_upper (c : ascii) : bool := in_range 65 90 c.

(** [\w] on ASCII text: letters, digits and the underscore. *)
Definition is_word_char (c : ascii) : bool :=
  in_range 97 122 c || in_range 65 90 c || in_range 48 57 c || (nat_of_ascii c =? 95)%nat.

Definition lower_char (c : ascii) : ascii :=
  if is_upper c then ascii_of_nat (nat_of_ascii c + 32) else c.

(** [str.lower()] *)
Fixpoint lower (s : string) : string :=
  match s with
  | EmptyString => EmptyString
  | String c s' => String (lower_char c) (lower s')
  end.

Definition flush (cur : string) : list string :=
  match cur with EmptyString => [] | _ => [cur] end.

(** [re.findall(r'\b\w+\b', s)]: the maximal runs of word characters of
    [s], left to right. [cur] is the run being read. *)
Fixpoint findall_from (cur : string) (s : string) : list string :=
  match s with
  | EmptyString => flush cur
  | String c s' =>
      if is_word_char c then findall_from (cur +:+ String c EmptyString) s'
      else flush cur ++ findall_from EmptyString s'
  end.

Definition findall_words (s : string) : list string := findall_from EmptyString s.

(** The comprehension's condition [w not in STOPWORDS and len(w) > 2]. *)
Definition keep (w : string) : bool :=
  bool_decide (w ∉ STOPWORDS) && (2 <? String.length w)%nat.

(** [collections.Counter] as the insertion-ordered dictionary it is: a key
    seen again has its count increased in place, a new key goes last. *)
Fixpoint counter_incr (w : string) (c : list (string * nat)) : list (string * nat) :=
  match c with
  | [] => [(w, 1)]
  | (k, n) :: c' =>
      if String.eqb k w then (k, S n) :: c' else (k, n) :: counter_incr w c'
  end.

Definition Counter (ws : list string) : list (string * nat) :=
  fold_left (fun c w => counter_incr w c) ws [].

(** Stable insertion in descending order of count: the new entry goes in
    front of the first entry whose count does not exceed its own. *)
Fixpoint insert_desc (x : string * nat) (l : list (string * nat)) : list (string * nat) :=
  match l with
  | [] => [x]
  | y :: l' => if (snd y <=? snd x)%nat then x :: y :: l' else y :: insert_desc x l'
  end.

(** [sorted(items, key=itemgetter(1), reverse=True)]: a stable sort, so
    entries of equal count keep the order of the dictionary. *)
Definition sorted_desc (c : list (string * nat)) : list (string * nat) :=
  fold_right insert_desc [] c.

(** [Counter.most_common(n)], that is [heapq.nlargest(n, items, key=count)],
    which is specified as [sorted(items, key=count, reverse=True)[:n]]. *)
Definition most_common (n : nat) (c : list (string * nat)) : list (string * nat) :=
  take n (sorted_desc c).

(** [extract_keywords(text, top_n=10)]; [top_n] is the number of keywords
    wanted, and the program only ever uses the default. *)
Definition extract_keywords (text : string) (top_n : nat) : list string :=
  let words := findall_words (lower text) in
  let words := List.filter keep words in
  let counter := Counter words in
  (most_common top_n counter).*1.

(** Frequency of a word in a token list, and the position of its first
    occurrence (the length of the list when it does not occur). *)
Fixpoint freq (w : string) (ws : list string) : nat :=
  match ws with
  | [] => 0
  | x :: r => (if String.eqb x w then 1 else 0) + freq w r
  end.

Fixpoint first_pos (w : string) (ws : list string) : nat :=
  match ws with
  | [] => 0
  | x :: r => if String.eqb x w then 0 else S (first_pos w r)
  end.



(** [a] occurs for the first time before [b] does. *)
Definition before (ws : list string) (a b : string) : Prop :=
  first_pos a ws < first_pos b ws.

(** The ranking of keywords: higher frequency first, and among words of
    equal frequency the one that occurs first. *)
Definition ranks_before (ws : list string) (a b : string) : Prop :=
  freq b ws < freq a ws \/ (freq a ws = freq b ws /\ before ws a b).

(** The entries of [Counter ws]: every word of [ws] once, with its
    frequency, in the order of first occurrence. *)
Record counter_inv (ws : list string) (c : list (string * nat)) : Prop := {
  inv_count : forall k n, (k, n) ∈ c -> n = freq k ws /\ k ∈ ws;
  inv_all : forall k, k ∈ ws -> k ∈ c.*1;
  inv_order : StronglySorted (before ws) c.*1
}.

(** The order that [sorted_desc] establishes on counter entries. *)
Definition entry_before (ws : list string) (a b : string * nat) : Prop :=
  snd b < snd a \/ (snd a = snd b /\ before ws (fst a) (fst b)).

End Keywords.


(** ** Python exceptions and results *)

Module Py.

Inductive exn : Type :=
  | KeyError (key : string)
  | ParamValidationError
  | ClientError (code : string).

Inductive result (A : Type) : Type :=
  | Ok (a : A)
  | Raise (e : exn).
Arguments Ok {A} a.
Arguments Raise {A} e.

Definition bind {A B} (r : result A) (k : A -> result B) : result B :=
  match r with
  | Ok a => k a
  | Raise e => Raise e
  end.

(** A comprehension or loop body run over a list, left to right, stopping
    at the first exception. *)
Fixpoint for_each {A B} (f : A -> result B) (l : list A) : result (list B) :=
  match l with
  | [] => Ok []
  | x :: l' => bind (f x) (fun y => bind (for_each f l') (fun ys => Ok (y :: ys)))
  end.

(** [d[key]] on a dictionary that may lack the key. *)
Definition subscript {A} (key : string) (o : option A) : result A :=
  match o with
  | Some a => Ok a
  | None => Raise (KeyError key)
  end.

End Py.

#[global] Instance result_bind : MBind Py.result := fun A B k r => Py.bind r k.
#[global] Instance result_ret : MRet Py.result := fun A a => Py.Ok a.

(** ** The DynamoDB table behind boto3's [Table] resource *)

Module Dynamo.
Import Py.

(** A DynamoDB item: the dictionaries built by [transform_paper]. Every
    item has the table keys [PK] and [SK] and the five common attributes;
    the index keys, [abstract] and [keywords] are present on some kinds of
    item only. *)
Record Item : Type := {
  PK : string;
  SK : string;
  GSI1PK : option string;
  GSI1SK : option string;
  GSI2PK : option string;
  GSI2SK : option string;
  GSI3PK : option string;
  GSI3SK : option string;
  arxiv_id : string;
  title : string;
  authors : list string;
  abstract : option string;
  categories : list string;
  keywords : option (list string);
  published : string
}.

#[global] Instance Item_eq_dec : EqDecision Item.
Proof. solve_decision. Defined.

(** The global secondary indexes declared by [create_table]. *)
Inductive Index : Type := AuthorIndex | PaperIdIndex | KeywordIndex.

#[global] Instance Index_eq_dec : EqDecision Index.
Proof. solve_decision. Defined.

(** A table: its items under their primary key [(PK, SK)], and the indexes
    it was created with. *)
Record Table : Type := {
  items : gmap (string * string) Item;
  indexes : list Index
}.

Definition primary_key (it : Item) : string * string := (PK it, SK it).

(** [put_item(Item=it)] without a condition expression: the item is
    written under its primary key, replacing an item already stored there. *)
Definition put_item (t : Table) (it : Item) : Table :=
  {| items := <[primary_key it := it]> (items t); indexes := indexes t |}.

(** The key schema of the table ([None]) and of each index: the hash and
    range key of an item, when the item has both attributes. An item
    lacking them is not part of the index. *)
Definition key_of (ix : option Index) (it : Item) : option (string * string) :=
  match ix with
  | None => Some (PK it, SK it)
  | Some AuthorIndex => pk ← GSI1PK it; sk ← GSI1SK it; Some (pk, sk)
  | Some PaperIdIndex => pk ← GSI2PK it; sk ← GSI2SK it; Some (pk, sk)
  | Some KeywordIndex => pk ← GSI3PK it; sk ← GSI3SK it; Some (pk, sk)
  end.

Definition sort_key (ix : option Index) (it : Item) : string :=
  match key_of ix it with
  | Some (_, sk) => sk
  | None => ""
  end.

(** A query: [IndexName], the key condition (hash key equal to [hash_eq],
    range key optionally [between] two bounds, both inclusive),
    [ScanIndexForward] and [Limit]. The key attributes named in the source's
    conditions are those of the queried table or index. *)
Record QueryRequest : Type := {
  IndexName : option Index;
  hash_eq : string;
  range_between : option (string * string);
  ScanIndexForward : bool;
  Limit : option Z
}.

(** [Attr("authors").contains(a)] on the list attribute [authors]. *)
Inductive Filter : Type := AuthorsContains (a : string).

Inductive Request : Type :=
  | QueryCall (req : QueryRequest)
  | ScanCall (f : Filter).

(** What a call on the table handle gives back: the requests that reached
    the service, and the items returned or the exception raised. *)
Record Response (A : Type) : Type := {
  sent : list Request;
  outcome : result A
}.
Arguments sent {A} _.
Arguments outcome {A} _.

Definition in_bounds (b : option (string * string)) (sk : string) : bool :=
  match b with
  | None => true
  | Some (lo, hi) => String.leb lo sk && String.leb sk hi
  end.

Definition matches (req : QueryRequest) (it : Item) : bool :=
  match key_of (IndexName req) it with
  | Some (pk, sk) => String.eqb pk (hash_eq req) && in_bounds (range_between req) sk
  | None => false
  end.

Definition stored (t : Table) : list Item := (map_to_list (items t)).*2.

Definition sort_le (ix : option Index) (a b : Item) : Prop :=
  StrOrder.le (sort_key ix a) (sort_key ix b).

#[global] Instance sort_le_dec ix a b : Decision (sort_le ix a b).
Proof. unfold sort_le. apply _. Defined.

(** The items a valid query returns: those matching the key condition
    ([found]), in
    ascending order of the range key, or descending when [ScanIndexForward]
    is false, cut to [Limit] items. *)
Definition found (t : Table) (req : QueryRequest) : list Item :=
  List.filter (matches req) (stored t).

Definition select (t : Table) (req : QueryRequest) : list Item :=
  let ascending := merge_sort (sort_le (IndexName req)) (found t req) in
  let ordered := if ScanIndexForward req then ascending else reverse ascending in
  match Limit req with
  | Some n => take (Z.to_nat n) ordered
  | None => ordered
  end.

Definition valid_limit (l : option Z) : bool :=
  match l with
  | Some n => (1 <=? n)%Z
  | None => true
  end.

Definition has_index (t : Table) (ix : option Index) : bool :=
  match ix with
  | None => true
  | Some i => bool_decide (i ∈ indexes t)
  end.

(** The service accepts [BETWEEN lo AND hi] only when [lo] is not above
    [hi]. *)
Definition valid_range (b : option (string * string)) : bool :=
  match b with
  | Some (lo, hi) => String.leb lo hi
  | None => true
  end.

(** [table.query(...)]. The client validates the parameters first ([Limit]
    has the minimum 1) and raises [ParamValidationError] without sending
    anything. The service answers a query on an index that the table lacks,
    or with a [between] whose lower bound is above the upper bound, by a
    [ValidationException], which the client raises as a [ClientError]. *)
Definition query (t : Table) (req : QueryRequest) : Response (list Item) :=
  if negb (valid_limit (Limit req)) then
    {| sent := []; outcome := Raise ParamValidationError |}
  else if negb (has_index t (IndexName req) && valid_range (range_between req)) then
    {| sent := [QueryCall req]; outcome := Raise (ClientError "ValidationException") |}
  else
    {| sent := [QueryCall req]; outcome := Ok (select t req) |}.

Definition passes (f : Filter) (it : Item) : bool :=
  match f with
  | AuthorsContains a => bool_decide (a ∈ authors it)
  end.

(** [table.scan(FilterExpression=f)]: every stored item passing the filter. *)
Definition scan (t : Table) (f : Filter) : Response (list Item) :=
  {| sent := [ScanCall f]; outcome := Ok (List.filter (passes f) (stored t)) |}.

End Dynamo.

(** ** load_data.py: from one paper to DynamoDB items *)

Module LoadData.
Import Py Dynamo.

(** A paper as read from the JSON file: a dictionary in which any of the
    six keys may be missing. *)
Record paper : Type := {
  p_arxiv_id : option string;
  p_title : option string;
  p_authors : option (list string);
  p_abstract : option string;
  p_categories : option (list string);
  p_published : option string
}.

(** The normalized record: a paper that carries all six keys. *)
Record record : Type := {
  rec_id : string;
  rec_title : string;
  rec_authors : list string;
  rec_abstract : string;
  rec_categories : list string;
  rec_published : string
}.

Definition to_paper (r : record) : paper :=
  {| p_arxiv_id := Some (rec_id r);
     p_title := Some (rec_title r);
     p_authors := Some (rec_authors r);
     p_abstract := Some (rec_abstract r);
     p_categories := Some (rec_categories r);
     p_published := Some (rec_published r) |}.

(** [s[:10]] *)
Definition slice10 (s : string) : string := String.substring 0 10 s.

Definition category_item (arxiv_id published_date : string) (keywords : list string)
    (p : paper) (category : string) : result Item :=
  title ← subscript "title" (p_title p);
  authors ← subscript "authors" (p_authors p);
  abstract ← subscript "abstract" (p_abstract p);
  categories ← subscript "categories" (p_categories p);
  published ← subscript "published" (p_published p);
  Ok {| PK := "CATEGORY#" +:+ category;
        SK := published_date +:+ "#" +:+ arxiv_id;
        GSI1PK := None; GSI1SK := None;
        GSI2PK := Some ("ARXIV#" +:+ arxiv_id);
        GSI2SK := Some ("CATEGORY#" +:+ category);
        GSI3PK := None; GSI3SK := None;
        arxiv_id := arxiv_id;
        title := title;
        authors := authors;
        abstract := Some abstract;
        categories := categories;
        keywords := Some keywords;
        published := published |}.

Definition author_item (arxiv_id published_date : string)
    (p : paper) (author : string) : result Item :=
  title ← subscript "title" (p_title p);
  authors ← subscript "authors" (p_authors p);
  categories ← subscript "categories" (p_categories p);
  published ← subscript "published" (p_published p);
  Ok {| PK := "ARXIV#" +:+ arxiv_id;
        SK := "AUTHOR#" +:+ author +:+ "#" +:+ published_date;
        GSI1PK := Some ("AUTHOR#" +:+ author);
        GSI1SK := Some (published_date +:+ "#" +:+ arxiv_id);
        GSI2PK := None; GSI2SK := None;
        GSI3PK := None; GSI3SK := None;
        arxiv_id := arxiv_id;
        title := title;
        authors := authors;
        abstract := None;
        categories := categories;
        keywords := None;
        published := published |}.

Definition keyword_item (arxiv_id published_date : string)
    (p : paper) (kw : string) : result Item :=
  title ← subscript "title" (p_title p);
  authors ← subscript "authors" (p_authors p);
  categories ← subscript "categories" (p_categories p);
  published ← subscript "published" (p_published p);
  Ok {| PK := "ARXIV#" +:+ arxiv_id;
        SK := "KEYWORD#" +:+ kw +:+ "#" +:+ published_date;
        GSI1PK := None; GSI1SK := None;
        GSI2PK := None; GSI2SK := None;
        GSI3PK := Some ("KEYWORD#" +:+ kw);
        GSI3SK := Some (published_date +:+ "#" +:+ arxiv_id);
        arxiv_id := arxiv_id;
        title := title;
        authors := authors;
        abstract := None;
        categories := categories;
        keywords := None;
        published := published |}.

Definition paper_id_item (arxiv_id : string) (keywords : list string)
    (p : paper) : result Item :=
  title ← subscript "title" (p_title p);
  authors ← subscript "authors" (p_authors p);
  abstract ← subscript "abstract" (p_abstract p);
  categories ← subscript "categories" (p_categories p);
  published ← subscript "published" (p_published p);
  Ok {| PK := "ARXIV#" +:+ arxiv_id;
        SK := "ARXIV#" +:+ arxiv_id;
        GSI1PK := None; GSI1SK := None;
        GSI2PK := Some ("ARXIV#" +:+ arxiv_id);
        GSI2SK := Some ("ARXIV#" +:+ arxiv_id);
        GSI3PK := None; GSI3SK := None;
        arxiv_id := arxiv_id;
        title := title;
        authors := authors;
        abstract := Some abstract;
        categories := categories;
        keywords := Some keywords;
        published := published |}.

(** [transform_paper(paper)]: the category items, then the author items,
    then the keyword items, then the paper-id item. [paper.get(k, default)]
    is [default d o]; [paper[k]] raises [KeyError] when the key is missing. *)
Definition transform_paper (p : paper) : result (list Item) :=
  let keywords := Keywords.extract_keywords (default "" (p_abstract p)) 10 in
  arxiv_id ← subscript "arxiv_id" (p_arxiv_id p);
  published ← subscript "published" (p_published p);
  let published_date := slice10 published in
  cat_items ← for_each (category_item arxiv_id published_date keywords p)
                 (default [] (p_categories p));
  author_items ← for_each (author_item arxiv_id published_date p)
                    (default [] (p_authors p));
  keyword_items ← for_each (keyword_item arxiv_id published_date p) keywords;
  id_item ← paper_id_item arxiv_id keywords p;
  Ok (cat_items ++ author_items ++ keyword_items ++ [id_item]).

(** [batch_write(table, items)]: one [put_item] per item, in order. How
    the batch writer groups the puts into requests is not modelled. *)
Definition batch_write (table : Table) (items : list Item) : Table :=
  fold_left put_item items table.

(** [create_table]: a fresh, empty table with the three indexes (a table
    of the same name that exists is deleted first). *)
Definition create_table : Table :=
  {| Dynamo.items := ∅; indexes := [AuthorIndex; PaperIdIndex; KeywordIndex] |}.

(** The loading part of [main]: every paper of the JSON file is
    transformed, and the chained items are written to the new table. *)
Definition main (papers : list paper) : result Table :=
  all_items ← for_each transform_paper papers;
  Ok (batch_write create_table (mjoin all_items)).

(** *** The items of a complete record

    For a record, which has every key, no subscript fails and the items of
    [transform_paper] are the following (lemma [transform_paper_record]). *)

Definition keywords_of (r : record) : list string :=
  Keywords.extract_keywords (rec_abstract r) 10.

Definition date_of (r : record) : string := slice10 (rec_published r).

Definition category_entry (r : record) (category : string) : Item :=
  {| PK := "CATEGORY#" +:+ category;
     SK := date_of r +:+ "#" +:+ rec_id r;
     GSI1PK := None; GSI1SK := None;
     GSI2PK := Some ("ARXIV#" +:+ rec_id r);
     GSI2SK := Some ("CATEGORY#" +:+ category);
     GSI3PK := None; GSI3SK := None;
     arxiv_id := rec_id r;
     title := rec_title r;
     authors := rec_authors r;
     abstract := Some (rec_abstract r);
     categories := rec_categories r;
     keywords := Some (keywords_of r);
     published := rec_published r |}.

Definition author_entry (r : record) (author : string) : Item :=
  {| PK := "ARXIV#" +:+ rec_id r;
     SK := "AUTHOR#" +:+ author +:+ "#" +:+ date_of r;
     GSI1PK := Some ("AUTHOR#" +:+ author);
     GSI1SK := Some (date_of r +:+ "#" +:+ rec_id r);
     GSI2PK := None; GSI2SK := None;
     GSI3PK := None; GSI3SK := None;
     arxiv_id := rec_id r;
     title := rec_title r;
     authors := rec_authors r;
     abstract := None;
     categories := rec_categories r;
     keywords := None;
     published := rec_published r |}.

Definition keyword_entry (r : record) (kw : string) : Item :=
  {| PK := "ARXIV#" +:+ rec_id r;
     SK := "KEYWORD#" +:+ kw +:+ "#" +:+ date_of r;
     GSI1PK := None; GSI1SK := None;
     GSI2PK := None; GSI2SK := None;
     GSI3PK := Some ("KEYWORD#" +:+ kw);
     GSI3SK := Some (date_of r +:+ "#" +:+ rec_id r);
     arxiv_id := rec_id r;
     title := rec_title r;
     authors := rec_authors r;
     abstract := None;
     categories := rec_categories r;
     keywords := None;
     published := rec_published r |}.

Definition id_entry (r : record) : Item :=
  {| PK := "ARXIV#" +:+ rec_id r;
     SK := "ARXIV#" +:+ rec_id r;
     GSI1PK := None; GSI1SK := None;
     GSI2PK := Some ("ARXIV#" +:+ rec_id r);
     GSI2SK := Some ("ARXIV#" +:+ rec_id r);
     GSI3PK := None; GSI3SK := None;
     arxiv_id := rec_id r;
     title := rec_title r;
     authors := rec_authors r;
     abstract := Some (rec_abstract r);
     categories := rec_categories r;
     keywords := Some (keywords_of r);
     published := rec_published r |}.

Definition expand (r : record) : list Item :=
  (category_entry r <$> rec_categories r) ++
  (author_entry r <$> rec_authors r) ++
  (keyword_entry r <$> keywords_of r) ++
  [id_entry r].

(** The table after loading a list of records. *)
Definition loaded (rs : list record) : Table :=
  batch_write create_table (mjoin (expand <$> rs)).

(** *** The four kinds of item, told apart by their keys *)

(** The canonical item of a paper: both table keys are [ARXIV#<id>]. *)
Definition is_id_item (it : Item) : bool :=
  String.eqb (PK it) ("ARXIV#" +:+ arxiv_id it) && String.eqb (SK it) ("ARXIV#" +:+ arxiv_id it).

(** A by-category item lives in a [CATEGORY#] partition of the table. *)
Definition is_category_item (it : Item) : bool := String.prefix "CATEGORY#" (PK it).

(** A by-author item is an entry of the author index. *)
Definition is_author_item (it : Item) : bool := bool_decide (is_Some (GSI1PK it)).

(** A by-keyword item is an entry of the keyword index. *)
Definition is_keyword_item (it : Item) : bool := bool_decide (is_Some (GSI3PK it)).

Definition count_kind (kind : Item -> bool) (its : list Item) : nat :=
  length (List.filter kind its).

(** [paper[key]] on a missing key is the only way [transform_paper] fails. *)
Definition only_key_error {A} (r : result A) : Prop :=
  match r with
  | Ok _ => True
  | Raise e => exists key, e = KeyError key
  end.

(** The id of the paper is part of an item's keys, as it is. *)
Definition embeds_id (id : string) (it : Item) : Prop :=
  arxiv_id it = id /\
  (PK it = "ARXIV#" +:+ id \/ exists date, SK it = date +:+ "#" +:+ id).

(** The item that a sequence of writes leaves under a key: the last one
    written there. *)
Fixpoint last_put (k : string * string) (its : list Item) : option Item :=
  match its with
  | [] => None
  | x :: rest =>
      match last_put k rest with
      | Some v => Some v
      | None => if decide (primary_key x = k) then Some x else None
      end
  end.

End LoadData.

(** ** query_papers.py: the five access patterns *)

Module QueryPapers.
Import Py Dynamo.

(** The dictionary built for each returned item. *)
Record Projection : Type := {
  r_arxiv_id : string;
  r_title : string;
  r_authors : list string;
  r_published : string;
  r_categories : list string
}.

Definition project (i : Item) : Projection :=
  {| r_arxiv_id := arxiv_id i;
     r_title := title i;
     r_authors := authors i;
     r_published := published i;
     r_categories := categories i |}.

(** The returned dictionary, without the echoed parameters and the
    measured execution time. *)
Record QueryResult : Type := {
  results : list Projection;
  count : nat
}.

Definition listing (its : list Item) : QueryResult :=
  let items := project <$> its in
  {| results := items; count := length items |}.

Definition answer {A B} (f : A -> B) (r : Response A) : Response B :=
  {| sent := sent r;
     outcome := match outcome r with Ok a => Ok (f a) | Raise e => Raise e end |}.

Definition query_recent_in_category (table : Table) (category : string) (limit : Z)
    : Response QueryResult :=
  let response := query table
    {| IndexName := None;
       hash_eq := "CATEGORY#" +:+ category;
       range_between := None;
       ScanIndexForward := false;
       Limit := Some limit |} in
  answer listing response.

Definition query_papers_by_author (table : Table) (author_name : string)
    : Response QueryResult :=
  let response := query table
    {| IndexName := Some AuthorIndex;
       hash_eq := "AUTHOR#" +:+ author_name;
       range_between := None;
       ScanIndexForward := true;
       Limit := None |} in
  answer listing response.

Definition paper_id_query (arxiv_id : string) : QueryRequest :=
  {| IndexName := Some PaperIdIndex;
     hash_eq := "ARXIV#" +:+ arxiv_id;
     range_between := None;
     ScanIndexForward := true;
     Limit := None |}.

Definition get_paper_by_id (table : Table) (arxiv_id : string)
    : Response QueryResult :=
  let response := query table (paper_id_query arxiv_id) in
  answer (fun its =>
    let result :=
      match its with
      | [] => None
      | i :: _ => Some (project i)
      end in
    {| results := match result with Some r => [r] | None => [] end;
       count := match result with Some _ => 1 | None => 0 end |}) response.

Definition query_papers_in_date_range (table : Table)
    (category start_date end_date : string) : Response QueryResult :=
  let response := query table
    {| IndexName := None;
       hash_eq := "CATEGORY#" +:+ category;
       range_between := Some (start_date +:+ "#", end_date +:+ "#zzzzzzzz");
       ScanIndexForward := true;
       Limit := None |} in
  answer listing response.

Definition query_papers_by_keyword (table : Table) (keyword : string) (limit : Z)
    : Response QueryResult :=
  let response := query table
    {| IndexName := Some KeywordIndex;
       hash_eq := "KEYWORD#" +:+ Keywords.lower keyword;
       range_between := None;
       ScanIndexForward := false;
       Limit := Some limit |} in
  answer listing response.

(** The publication date of a result: the first ten characters of its
    [published] attribute, as used in the sort keys. *)
Definition date_of (r : Projection) : string := String.substring 0 10 (r_published r).

(** Reverse chronological order of results: a later date first, and for
    one date the ids in descending order, as in the sort keys
    [<date>#<id>] read backwards. *)
Definition newer_first (a b : Projection) : Prop :=
  StrOrder.lt (date_of b) (date_of a) \/
  (date_of a = date_of b /\ StrOrder.le (r_arxiv_id b) (r_arxiv_id a)).

(** The sort key that ingestion wrote for a result. *)
Definition encoded_sort_key (r : Projection) : string :=
  date_of r +:+ "#" +:+ r_arxiv_id r.

(** The number of items in the partition of a category. *)
Definition category_size (table : Table) (category : string) : nat :=
  length (found table
    {| IndexName := None;
       hash_eq := "CATEGORY#" +:+ category;
       range_between := None;
       ScanIndexForward := false;
       Limit := None |}).

(** Records whose [published] has the ten characters of a date. *)
Definition dated (r : LoadData.record) : Prop :=
  10 <= String.length (LoadData.rec_published r).

(** Records whose id does not sort after the upper bound [zzzzzzzz] that
    [query_papers_in_date_range] appends to the end date. *)
Definition below_sentinel (r : LoadData.record) : Prop :=
  StrOrder.le (LoadData.rec_id r) "zzzzzzzz".

(** A result whose date lies in the inclusive range. *)
Definition in_date_range (d1 d2 : string) (p : Projection) : Prop :=
  StrOrder.le d1 (date_of p) /\ StrOrder.le (date_of p) d2.

End QueryPapers.

(** ** api_server.py: by-author with its scan fallback *)

Module ApiServer.
Import Py Dynamo.

(** [query_papers_by_author(table_name, author_name, limit)]: the index
    query inside [try], and under [except Exception] the scan. [limit] is
    the integer that [int(limit)] yields. *)
Definition query_papers_by_author (table : Table) (author_name : string) (limit : Z)
    : Response (list Item) :=
  let response := query table
    {| IndexName := Some AuthorIndex;
       hash_eq := "AUTHOR#" +:+ author_name;
       range_between := None;
       ScanIndexForward := true;
       Limit := Some limit |} in
  match outcome response with
  | Ok its => {| sent := sent response; outcome := Ok its |}
  | Raise _ =>
      let fallback := scan table (AuthorsContains author_name) in
      {| sent := sent response ++ sent fallback; outcome := outcome fallback |}
  end.

(** The set of paper ids in a list of returned items. *)
Definition ids_of (its : list Item) : gset string := list_to_set (arxiv_id <$> its).

Definition author_query (author_name : string) (limit : option Z) : QueryRequest :=
  {| IndexName := Some AuthorIndex;
     hash_eq := "AUTHOR#" +:+ author_name;
     range_between := None;
     ScanIndexForward := true;
     Limit := limit |}.

(** The number of entries the author index holds for an author. *)
Definition author_entries (table : Table) (author_name : string) : nat :=
  length (found table (author_query author_name None)).

(** The same table with its indexes disabled. *)
Definition without_indexes (table : Table) : Table :=
  {| items := items table; indexes := [] |}.

End ApiServer.


(** ** load_data.py: [main] with its report *)

Module LoadReport.
Import Py Dynamo LoadData.

(** [key in paper] *)
Definition has_key (p : paper) (key : string) : bool :=
  if String.eqb key "arxiv_id" then bool_decide (is_Some (p_arxiv_id p))
  else if String.eqb key "title" then bool_decide (is_Some (p_title p))
  else if String.eqb key "authors" then bool_decide (is_Some (p_authors p))
  else if String.eqb key "abstract" then bool_decide (is_Some (p_abstract p))
  else if String.eqb key "categories" then bool_decide (is_Some (p_categories p))
  else if String.eqb key "published" then bool_decide (is_Some (p_published p))
  else false.

(** The paper has all six keys. *)
Definition complete (p : paper) : bool :=
  has_key p "arxiv_id" && has_key p "title" && has_key p "authors" &&
  has_key p "abstract" && has_key p "categories" && has_key p "published".

(** An exception of the loader, or a failure to find a missing key. *)
Definition raises_missing_key {A} (p : paper) (r : result A) : Prop :=
  match r with
  | Ok _ => True
  | Raise e => exists key, e = KeyError key /\ has_key p key = false
  end.

(** The numbers that [main] prints after the load. The ratios printed
    beside them ([total_items / num_papers] and the averages per paper) are
    floating-point numbers and are left out; the division they need is
    kept, since it fails when there is no paper. *)
Record Report : Type := {
  num_papers : nat;
  total_items : nat;
  category_items : nat;
  author_items : nat;
  keyword_items : nat;
  paper_id_items : nat
}.

Inductive failure : Type :=
  | Uncaught (e : exn)
  | ZeroDivisionError.

Inductive ending : Type :=
  | Reported (r : Report)
  | Failed (f : failure).

(** A run of [main]: the table as the run leaves it, and how the run
    ends. *)
Record Run : Type := {
  table_left : Table;
  finished : ending
}.

(** [sum(len(...) for p in papers)] *)
Definition sum_over {A} (f : A -> nat) (l : list A) : nat :=
  foldr (fun x acc => f x + acc) 0 l.

(** [main], after the arguments are parsed and the JSON file is read into
    [papers]: the table is created, all papers are transformed, the items
    are written, and the report is computed. *)
Definition run_main (papers : list paper) : Run :=
  let table := create_table in
  match for_each transform_paper papers with
  | Raise e => {| table_left := table; finished := Failed (Uncaught e) |}
  | Ok per_paper =>
      let all_items := mjoin per_paper in
      let table := batch_write table all_items in
      let num_papers := length papers in
      let total_items := length all_items in
      if (num_papers =? 0)%nat then
        {| table_left := table; finished := Failed ZeroDivisionError |}
      else
        {| table_left := table;
           finished := Reported
             {| num_papers := num_papers;
                total_items := total_items;
                category_items :=
                  sum_over (fun p => length (default [] (p_categories p))) papers;
                author_items :=
                  sum_over (fun p => length (default [] (p_authors p))) papers;
                keyword_items :=
                  sum_over (fun p => length
                    (Keywords.extract_keywords (default "" (p_abstract p)) 10)) papers;
                paper_id_items := num_papers |} |}
  end.

End LoadReport.

(** ** What the queries are expected to show of a record *)

Module QueryVocabulary.
Import Py Dynamo LoadData QueryPapers.

(** The five attributes of a record that every query result shows. *)
Definition summary (r : record) : Projection :=
  {| r_arxiv_id := rec_id r;
     r_title := rec_title r;
     r_authors := rec_authors r;
     r_published := rec_published r;
     r_categories := rec_categories r |}.

(** A response that, when it carries results, carries summaries of records
    of [rs] only, with [count] their number. *)
Definition answers_from (rs : list record) (resp : Response QueryResult) : Prop :=
  match outcome resp with
  | Ok res =>
      count res = length (results res) /\
      Forall (fun p => exists r, r ∈ rs /\ p = summary r) (results res)
  | Raise _ => True
  end.

(** Chronological order of results: an earlier date first, and for one
    date the ids in ascending order. *)
Definition older_first (a b : Projection) : Prop :=
  StrOrder.lt (date_of a) (date_of b) \/
  (date_of a = date_of b /\ StrOrder.le (r_arxiv_id a) (r_arxiv_id b)).

Definition keyword_query (keyword : string) (limit : option Z) : QueryRequest :=
  {| IndexName := Some KeywordIndex;
     hash_eq := "KEYWORD#" +:+ Keywords.lower keyword;
     range_between := None;
     ScanIndexForward := false;
     Limit := limit |}.

(** The number of entries the keyword index holds for a keyword. *)
Definition keyword_entries (table : Table) (keyword : string) : nat :=
  length (found table (keyword_query keyword None)).

End QueryVocabulary.

(** ** api_server.py: the other query functions *)

Module ApiServerMore.
Import Py Dynamo LoadData.

(** [table.get_item(Key={"PK": pk, "SK": sk})]: the response, whose
    ["Item"] is present when an item is stored under the key. *)
Definition get_item (t : Table) (pk sk : string) : option Item :=
  items t !! (pk, sk).

(** [query_paper_by_id(table_name, paper_id)]: [response.get("Item")]. *)
Definition query_paper_by_id (table : Table) (paper_id : string) : option Item :=
  get_item table ("ARXIV#" +:+ paper_id) ("ARXIV#" +:+ paper_id).

(** [query_recent_papers(table_name, category, limit)]; [limit] is the
    integer that [int(limit)] yields. *)
Definition query_recent_papers (table : Table) (category : string) (limit : Z)
    : Response (list Item) :=
  query table
    {| IndexName := None;
       hash_eq := "CATEGORY#" +:+ category;
       range_between := None;
       ScanIndexForward := false;
       Limit := Some limit |}.

End ApiServerMore.

(** ** api_server.py: keyword search and the request handler *)

Module HttpServer.
Import Py Dynamo LoadData ApiServerMore.

(** [needle in haystack] on strings, which is what
    [Attr("title").contains(keyword)] tests on the string attribute
    [title]. *)
Fixpoint is_substring (needle haystack : string) : bool :=
  String.prefix needle haystack ||
  match haystack with
  | EmptyString => false
  | String _ rest => is_substring needle rest
  end.

Definition title_contains (keyword : string) (it : Item) : bool :=
  is_substring keyword (title it).

(** [table.scan(FilterExpression=Attr("title").contains(keyword),
    Limit=limit)]: the client validates [Limit] as for a query; the service
    reads at most [limit] items, in the order it stores them, and returns
    those that pass the filter. *)
Definition scan_title (t : Table) (keyword : string) (limit : Z) : result (list Item) :=
  if (1 <=? limit)%Z then
    Ok (List.filter (title_contains keyword) (take (Z.to_nat limit) (stored t)))
  else Raise ParamValidationError.

Definition search_query (keyword : string) (limit : Z) : QueryRequest :=
  {| IndexName := Some KeywordIndex;
     hash_eq := "KEYWORD#" +:+ Keywords.lower keyword;
     range_between := None;
     ScanIndexForward := true;
     Limit := Some limit |}.

(** [search_papers_by_keyword(table_name, keyword, limit)]: the keyword
    index inside [try], the scan of titles under [except Exception].
    [limit] is the integer that [int(limit)] yields. *)
Definition search_papers_by_keyword (table : Table) (keyword : string) (limit : Z)
    : result (list Item) :=
  match outcome (query table (search_query keyword limit)) with
  | Ok its => Ok its
  | Raise _ => scan_title table keyword limit
  end.

(** What the handler sends: [send_json] of a list of items or of one item,
    [send_error] with a status and a message, or the status 500 sent by the
    outer [except], whose message quotes the exception. *)
Inductive HttpResponse : Type :=
  | SendJson (data : list Item)
  | SendJsonItem (data : Item)
  | SendError (code : nat) (message : string)
  | ServerError.

(** The value of the [limit] parameter: the integer 10 of the default, or
    the text found in the request. *)
Inductive LimitValue : Type :=
  | DefaultLimit
  | LimitText (text : string).

Section Handler.

(** Python's [int] on a string: the integer, or [None] when it raises
    [ValueError]. *)
Variable int : string -> option Z.

Definition int_limit (limit : LimitValue) : option Z :=
  match limit with
  | DefaultLimit => Some 10%Z
  | LimitText text => int text
  end.

(** [query.get(name, [None])[0]] on the dictionary of [parse_qs], from
    names to lists of values. The outer [option] is [None] when the
    subscript raises (an empty list). *)
Definition first_value (query : gmap string (list string)) (name : string)
    : option (option string) :=
  match query !! name with
  | None => Some None
  | Some [] => None
  | Some (v :: _) => Some (Some v)
  end.

(** [query.get("limit", [10])[0]] *)
Definition limit_value (query : gmap string (list string)) : option LimitValue :=
  match query !! "limit" with
  | None => Some DefaultLimit
  | Some [] => None
  | Some (v :: _) => Some (LimitText v)
  end.

(** [not value] for a parameter: absent, or the empty string. *)
Definition missing (value : option string) : bool :=
  match value with
  | None => true
  | Some v => String.eqb v ""
  end.

Definition ok_or_none {A} (r : result A) : option A :=
  match r with
  | Ok a => Some a
  | Raise _ => None
  end.

(** [query_papers_by_author] called with the limit as the handler has it:
    [int(limit)] is evaluated inside the [try], so that a text that is no
    number leads to the scan as well. *)
Definition by_author (table : Table) (author : string) (limit : LimitValue)
    : result (list Item) :=
  match int_limit limit with
  | Some n => outcome (ApiServer.query_papers_by_author table author n)
  | None => outcome (scan table (AuthorsContains author))
  end.

(** The body of [do_GET] inside its [try]; [None] when an exception
    reaches the outer [except]. *)
Definition route (table : Table) (path : string) (query : gmap string (list string))
    : option HttpResponse :=
  if String.eqb path "/papers/recent" then
    category ← first_value query "category";
    limit ← limit_value query;
    if missing category then Some (SendError 400 "Missing 'category' parameter")
    else
      n ← int_limit limit;
      items ← ok_or_none (outcome (query_recent_papers table (default "" category) n));
      Some (SendJson items)
  else if String.eqb path "/papers/author" then
    author ← first_value query "name";
    limit ← limit_value query;
    if missing author then Some (SendError 400 "Missing 'name' parameter")
    else
      items ← ok_or_none (by_author table (default "" author) limit);
      Some (SendJson items)
  else if String.eqb path "/papers/id" then
    paper_id ← first_value query "id";
    if missing paper_id then Some (SendError 400 "Missing 'id' parameter")
    else
      match query_paper_by_id table (default "" paper_id) with
      | None => Some (SendError 404 "Paper not found")
      | Some item => Some (SendJsonItem item)
      end
  else if String.eqb path "/papers/search" then
    keyword ← first_value query "keyword";
    limit ← limit_value query;
    if missing keyword then Some (SendError 400 "Missing 'keyword' parameter")
    else
      n ← int_limit limit;
      items ← ok_or_none (search_papers_by_keyword table (default "" keyword) n);
      Some (SendJson items)
  else Some (SendError 404 "Endpoint not found").

(** [do_GET], on the path and the parsed query string of the request. *)
Definition do_GET (table : Table) (path : string) (query : gmap string (list string))
    : HttpResponse :=
  match route table path query with
  | Some response => response
  | None => ServerError
  end.

End Handler.

(** The requests that [parse_qs] produces: no name has an empty list of
    values. *)
Definition parsed (query : gmap string (list string)) : Prop :=
  forall name values, query !! name = Some values -> values <> [].

(** The first value of a parameter, when the request has one. *)
Definition parameter (query : gmap string (list string)) (name : string) : option string :=
  query !! name ≫= head.

(** A limit that [table.query] does not accept: a text that is no number,
    or a number below 1. *)
Definition bad_limit (int : string -> option Z) (limit : LimitValue) : Prop :=
  match int_limit int limit with
  | Some n => (n < 1)%Z
  | None => True
  end.

(** The endpoints, each with the parameter it requires. *)
Definition required_parameter (path : string) : option string :=
  if String.eqb path "/papers/recent" then Some "category"
  else if String.eqb path "/papers/author" then Some "name"
  else if String.eqb path "/papers/id" then Some "id"
  else if String.eqb path "/papers/search" then Some "keyword"
  else None.

(** A decimal reading of digit strings, to instantiate [int] in concrete
    requests. *)
Definition digit_value (c : ascii) : option Z :=
  let n := nat_of_ascii c in
  if (48 <=? n)%nat && (n <=? 57)%nat then Some (Z.of_nat (n - 48)) else None.

Fixpoint decimal_from (acc : Z) (s : string) : option Z :=
  match s with
  | EmptyString => Some acc
  | String c rest =>
      match digit_value c with
      | Some d => decimal_from (10 * acc + d)%Z rest
      | None => None
      end
  end.

Definition decimal (s : string) : option Z :=
  match s with
  | EmptyString => None
  | _ => decimal_from 0 s
  end.

End HttpServer.

(** ** A small collection of papers, for concrete instances *)

Module Fixture.
Import LoadData.

Definition paper_a : record :=
  {| rec_id := "2401.00001";
     rec_title := "Attention in transformers";
     rec_authors := ["A. Einstein"; "N. Bohr"];
     rec_abstract := "The model uses attention based transformers. Transformers are powerful.";
     rec_categories := ["cs.AI"];
     rec_published := "2024-01-01T09:00:00Z" |}.

Definition paper_b : record :=
  {| rec_id := "2401.00002";
     rec_title := "Graphs of words";
     rec_authors := ["A. Einstein"];
     rec_abstract := "Graph models of language.";
     rec_categories := ["cs.AI"; "cs.CL"];
     rec_published := "2024-01-02T10:30:00Z" |}.

Definition papers : list record := [paper_a; paper_b].

(** Eleven papers of one author, one more than the default limit of the
    HTTP server's queries. *)
Definition by_einstein (n : string) : record :=
  {| rec_id := "2402.000" +:+ n;
     rec_title := "Note " +:+ n;
     rec_authors := ["A. Einstein"];
     rec_abstract := "";
     rec_categories := ["physics"];
     rec_published := "2024-02-" +:+ n +:+ "T00:00:00Z" |}.

Definition eleven_papers : list record :=
  by_einstein <$> ["01"; "02"; "03"; "04"; "05"; "06"; "07"; "08"; "09"; "10"; "11"].

(** Parsed query strings of requests to the HTTP server. *)
Definition only_a_limit : gmap string (list string) :=
  <["limit" := ["ten"]]> ∅.

Definition second_paper : gmap string (list string) :=
  <["id" := ["2401.00002"]]> ∅.

Definition limit_zero : gmap string (list string) :=
  <["limit" := ["0"]]> (<["category" := ["cs.AI"]]> (<["keyword" := ["graph"]]>
    (<["name" := ["N. Bohr"]]> ∅))).

Definition einstein_five : gmap string (list string) :=
  <["name" := ["A. Einstein"]]> (<["limit" := ["5"]]> ∅).

End Fixture.

(** * Properties *)

(** ** Facts about the order on strings *)

Module StrOrderFacts.
Import StrOrder.


Lemma ascii_compare_refl c : Ascii.compare c c = Eq.
Proof. unfold Ascii.compare. apply N.compare_refl. Qed.

Lemma compare_refl s : String.compare s s = Eq.
Proof. induction s as [|c s IH]; simpl; [done|]. by rewrite ascii_compare_refl. Qed.

Lemma ascii_compare_eq a b : Ascii.compare a b = Eq -> a = b.
Proof. apply Ascii.compare_eq_iff. Qed.

Lemma ascii_compare_lt_trans a b c :
  Ascii.compare a b = Lt -> Ascii.compare b c = Lt -> Ascii.compare a c = Lt.
Proof.
  unfold Ascii.compare. rewrite !N.compare_lt_iff. lia.
Qed.

Lemma compare_lt_trans a : forall b c,
  String.compare a b = Lt -> String.compare b c = Lt -> String.compare a c = Lt.
Proof.
  induction a as [|x a IH]; intros [|y b] [|z c]; simpl; try done.
  destruct (Ascii.compare x y) eqn:Hxy; try done;
    destruct (Ascii.compare y z) eqn:Hyz; try done; intros H1 H2.
  - apply ascii_compare_eq in Hxy, Hyz. subst. rewrite ascii_compare_refl. eauto.
  - apply ascii_compare_eq in Hxy. subst. by rewrite Hyz.
  - apply ascii_compare_eq in Hyz. subst. by rewrite Hxy.
  - by rewrite (ascii_compare_lt_trans _ _ _ Hxy Hyz).
Qed.

Lemma le_cases a b : le a b <-> String.compare a b = Lt \/ a = b.
Proof.
  unfold le, String.leb. split.
  - destruct (String.compare a b) eqn:H; try done; [right|left]; try done.
    by apply String.compare_eq_iff.
  - intros [->| ->]; [done|]. by rewrite compare_refl.
Qed.

Lemma lt_iff a b : lt a b <-> String.compare a b = Lt.
Proof. unfold lt, String.ltb. by destruct (String.compare a b). Qed.

#[global] Instance le_refl : Reflexive le.
Proof. intros a. apply le_cases. by right. Qed.

#[global] Instance le_trans : Transitive le.
Proof.
  intros a b c. rewrite !le_cases. intros [H1| ->] [H2| ->]; eauto.
  left. eapply compare_lt_trans; eauto.
Qed.

#[global] Instance le_total : Total le.
Proof. intros a b. apply String.leb_total. Qed.

#[global] Instance le_antisym : AntiSymm (=) le.
Proof. intros a b. apply String.leb_antisym. Qed.

Lemma lt_le a b : lt a b -> le a b.
Proof. rewrite lt_iff, le_cases. eauto. Qed.

Lemma lt_irrefl a : ~ lt a a.
Proof. rewrite lt_iff, compare_refl. done. Qed.

Lemma lt_not_le a b : lt a b -> ~ le b a.
Proof.
  rewrite lt_iff. unfold le, String.leb. rewrite (String.compare_antisym b a).
  by intros ->.
Qed.

Lemma not_le_lt a b : ~ le a b -> lt b a.
Proof.
  rewrite lt_iff. unfold le, String.leb. rewrite (String.compare_antisym b a).
  by destruct (String.compare a b).
Qed.

Lemma le_lt_or_eq a b : le a b <-> lt a b \/ a = b.
Proof. rewrite le_cases, lt_iff. done. Qed.

(** Comparing two strings that start with a common prefix. *)
Lemma compare_app_same p : forall a b,
  String.compare (p +:+ a) (p +:+ b) = String.compare a b.
Proof. induction p as [|c p IH]; intros; simpl; [done|]. by rewrite ascii_compare_refl. Qed.

(** Comparing [a +:+ x] with [b +:+ y] when [a] and [b] have the same length:
    the prefixes decide, the suffixes break the tie. *)
Lemma compare_app_len a : forall b x y,
  String.length a = String.length b ->
  String.compare (a +:+ x) (b +:+ y) =
    match String.compare a b with Eq => String.compare x y | c => c end.
Proof.
  induction a as [|c a IH]; intros [|d b] x y Hlen; simpl in *; try done.
  destruct (Ascii.compare c d); try done. apply IH. lia.
Qed.

Lemma append_inj_l p a b : p +:+ a = p +:+ b -> a = b.
Proof. induction p; simpl; intros H; [done|]. injection H. auto. Qed.

Lemma append_assoc (a b c : string) : (a +:+ b) +:+ c = a +:+ (b +:+ c).
Proof. induction a; simpl; congruence. Qed.

Lemma append_inj_r (a b s : string) : a +:+ s = b +:+ s -> a = b.
Proof.
  revert b. induction a as [|c a IH]; intros [|d b] H; simpl in H.
  - done.
  - exfalso. apply (f_equal String.length) in H. simpl in H.
    assert (String.length (b +:+ s) = String.length b + String.length s).
    { clear. induction b; simpl; auto. }
    lia.
  - exfalso. apply (f_equal String.length) in H. simpl in H.
    assert (String.length (a +:+ s) = String.length a + String.length s).
    { clear. induction a; simpl; auto. }
    lia.
  - injection H as -> H. f_equal. by apply IH.
Qed.

Lemma length_append (a b : string) :
  String.length (a +:+ b) = String.length a + String.length b.
Proof. induction a; simpl; auto. Qed.

End StrOrderFacts.
(** ** Keyword extraction *)

Module KeywordsFacts.
Import Keywords.

(** *** Characters and tokens *)








(** *** Frequencies and first positions *)

Lemma freq_app w a b : freq w (a ++ b) = freq w a + freq w b.
Proof. induction a as [|x a IH]; simpl; [done|]. rewrite IH. lia. Qed.

Lemma freq_pos_elem w ws : 0 < freq w ws <-> w ∈ ws.
Proof.
  induction ws as [|x ws IH]; simpl.
  - split; [lia|]. by intros ?%elem_of_nil.
  - rewrite elem_of_cons, <- IH. destruct (String.eqb_spec x w) as [->|Hne].
    + split; [auto|lia].
    + split; [auto|]. intros [->|H]; [done|lia].
Qed.

Lemma first_pos_lt w ws : w ∈ ws -> first_pos w ws < length ws.
Proof.
  induction ws as [|x ws IH]; simpl; [by intros ?%elem_of_nil|].
  intros [->|H]%elem_of_cons.
  - rewrite String.eqb_refl. lia.
  - destruct (String.eqb x w); [lia|]. specialize (IH H). lia.
Qed.

Lemma first_pos_app_elem w a b : w ∈ a -> first_pos w (a ++ b) = first_pos w a.
Proof.
  induction a as [|x a IH]; simpl; [by intros ?%elem_of_nil|].
  intros [->|H]%elem_of_cons.
  - by rewrite String.eqb_refl.
  - destruct (String.eqb x w); [done|]. by rewrite IH.
Qed.

Lemma first_pos_app_new w a b : w ∉ a -> first_pos w (a ++ b) = length a + first_pos w b.
Proof.
  induction a as [|x a IH]; simpl; [done|].
  intros [Hx Ha]%not_elem_of_cons.
  destruct (String.eqb_spec x w); [congruence|]. by rewrite IH.
Qed.

Lemma freq_filter (p : string -> bool) w ws :
  p w = true -> freq w (List.filter p ws) = freq w ws.
Proof.
  intros Hp. induction ws as [|x ws IH]; simpl; [done|].
  destruct (p x) eqn:Hx; simpl; rewrite IH; [done|].
  destruct (String.eqb_spec x w); [congruence|done].
Qed.

(** Dropping other tokens does not change which of two kept words comes
    first. *)
Lemma first_pos_filter (p : string -> bool) a b ws :
  p a = true -> p b = true ->
  first_pos a (List.filter p ws) < first_pos b (List.filter p ws) ->
  first_pos a ws < first_pos b ws.
Proof.
  intros Ha Hb. induction ws as [|x ws IH]; simpl; [lia|].
  destruct (p x) eqn:Hx; simpl;
    destruct (String.eqb_spec x a), (String.eqb_spec x b); subst; try lia; try congruence;
    intros H; apply IH in H; lia.
Qed.

(** *** The counter *)

Lemma Counter_snoc ws x : Counter (ws ++ [x]) = counter_incr x (Counter ws).
Proof. unfold Counter. by rewrite fold_left_app. Qed.

(** [counter_incr] either bumps the one entry of the word, in place, or
    appends a new entry. *)
Lemma counter_incr_spec x c :
  (exists c1 n c2, c = c1 ++ (x, n) :: c2 /\ (x ∉ c1.*1) /\
                   counter_incr x c = c1 ++ (x, S n) :: c2) \/
  ((x ∉ c.*1) /\ counter_incr x c = c ++ [(x, 1)]).
Proof.
  induction c as [|[k n] c IH]; simpl.
  - right. split; [apply not_elem_of_nil|done].
  - destruct (String.eqb_spec k x) as [->|Hne].
    + left. exists [], n, c. split_and!; [done|apply not_elem_of_nil|done].
    + destruct IH as [(c1 & m & c2 & -> & Hc1 & ->)|[Hx ->]].
      * left. exists ((k, n) :: c1), m, c2. split_and!; [done| |done].
        simpl. apply not_elem_of_cons. auto.
      * right. split; [|done]. apply not_elem_of_cons. auto.
Qed.

Lemma StronglySorted_weaken {A} (R R' : relation A) l :
  StronglySorted R l ->
  (forall a b, a ∈ l -> b ∈ l -> R a b -> R' a b) ->
  StronglySorted R' l.
Proof.
  induction 1 as [|a l Hs IH Hall]; intros Himp; constructor.
  - apply IH. intros x y Hx Hy. apply Himp; by apply elem_of_cons; right.
  - apply Forall_forall. intros y Hy. apply Himp; [left|by right|].
    by eapply Forall_forall in Hall.
Qed.

Lemma StronglySorted_snoc {A} (R : relation A) l x :
  StronglySorted R l -> Forall (fun y => R y x) l -> StronglySorted R (l ++ [x]).
Proof.
  intros Hl Hx. apply StronglySorted_app_2; [|done|repeat constructor].
  intros a b Ha ->%list_elem_of_singleton. by eapply Forall_forall in Hx.
Qed.

Lemma before_snoc ws x a b :
  a ∈ ws -> b ∈ ws -> before ws a b -> before (ws ++ [x]) a b.
Proof. unfold before. intros Ha Hb. by rewrite !first_pos_app_elem. Qed.

Lemma counter_inv_keys ws c k : counter_inv ws c -> k ∈ c.*1 -> k ∈ ws.
Proof.
  intros Hinv ([k' n] & -> & Hin)%list_elem_of_fmap. by apply (inv_count _ _ Hinv) in Hin as [_ ?].
Qed.

Lemma counter_inv_nodup ws c : counter_inv ws c -> NoDup c.*1.
Proof.
  intros Hinv. pose proof (inv_order _ _ Hinv) as Hs.
  induction Hs as [|a l Hs IH Hall]; constructor; [|done].
  intros Hin. eapply Forall_forall in Hall; [|done]. unfold before in Hall. lia.
Qed.

Ltac app_elem :=
  rewrite ?elem_of_app, ?elem_of_cons, ?list_elem_of_singleton; auto.

Lemma counter_inv_step ws c x :
  counter_inv ws c -> counter_inv (ws ++ [x]) (counter_incr x c).
Proof.
  intros Hinv.
  destruct (counter_incr_spec x c) as [(c1 & m & c2 & Hc & Hc1 & ->)|[Hx ->]].
  - (* the word was counted before *)
    assert (Hkeys : (c1 ++ (x, S m) :: c2).*1 = c.*1).
    { rewrite Hc, !fmap_app. done. }
    assert (Hxm : (x, m) ∈ c) by (rewrite Hc; app_elem).
    pose proof (counter_inv_nodup _ _ Hinv) as Hnd.
    split.
    + intros k n Hkn. rewrite freq_app. simpl.
      apply elem_of_app in Hkn as [Hkn|[Hkn|Hkn]%elem_of_cons].
      * assert (k <> x) by (intros ->; apply Hc1; by apply (list_elem_of_fmap_2 fst _ (x, n))).
        destruct (inv_count _ _ Hinv k n) as [-> ?]; [rewrite Hc; app_elem|].
        destruct (String.eqb_spec x k); [congruence|]. split; [lia|app_elem].
      * injection Hkn as -> ->. rewrite String.eqb_refl.
        destruct (inv_count _ _ Hinv x m Hxm) as [-> ?]. split; [lia|app_elem].
      * assert (k <> x).
        { intros ->. rewrite Hc, fmap_app in Hnd. simpl in Hnd.
          apply NoDup_app in Hnd as (_ & _ & [Hnot _]%NoDup_cons).
          apply Hnot. by apply (list_elem_of_fmap_2 fst _ (x, n)). }
        destruct (inv_count _ _ Hinv k n) as [-> ?]; [rewrite Hc; app_elem|].
        destruct (String.eqb_spec x k); [congruence|]. split; [lia|app_elem].
    + intros k [Hk| ->%list_elem_of_singleton]%elem_of_app; rewrite Hkeys.
      * by apply (inv_all _ _ Hinv).
      * by apply (list_elem_of_fmap_2 fst _ (x, m)).
    + rewrite Hkeys. eapply StronglySorted_weaken; [apply (inv_order _ _ Hinv)|].
      intros a b Ha Hb. apply before_snoc; by eapply counter_inv_keys.
  - (* a new word *)
    assert (Hnew : x ∉ ws) by (intros Hin; by apply Hx, (inv_all _ _ Hinv)).
    split.
    + intros k n [Hkn|Hkn%list_elem_of_singleton]%elem_of_app; rewrite freq_app; simpl.
      * destruct (inv_count _ _ Hinv k n Hkn) as [-> Hk].
        destruct (String.eqb_spec x k); [congruence|]. split; [lia|app_elem].
      * injection Hkn as -> ->. rewrite String.eqb_refl.
        assert (freq x ws = 0).
        { destruct (freq x ws) eqn:E; [done|]. exfalso. apply Hnew, freq_pos_elem. lia. }
        split; [lia|app_elem].
    + intros k Hk. rewrite fmap_app. simpl.
      apply elem_of_app in Hk as [Hk| ->%list_elem_of_singleton]; [|app_elem].
      apply elem_of_app. left. by apply (inv_all _ _ Hinv).
    + rewrite fmap_app. simpl. apply StronglySorted_snoc.
      * eapply StronglySorted_weaken; [apply (inv_order _ _ Hinv)|].
        intros a b Ha Hb. apply before_snoc; by eapply counter_inv_keys.
      * apply Forall_forall. intros k Hk. unfold before.
        pose proof (counter_inv_keys _ _ _ Hinv Hk) as Hkws.
        rewrite (first_pos_app_elem _ _ _ Hkws), (first_pos_app_new _ _ _ Hnew).
        pose proof (first_pos_lt _ _ Hkws). lia.
Qed.

Lemma Counter_inv ws : counter_inv ws (Counter ws).
Proof.
  induction ws as [|x ws IH] using rev_ind.
  - split; simpl.
    + by intros k n ?%elem_of_nil.
    + by intros k ?%elem_of_nil.
    + constructor.
  - rewrite Counter_snoc. by apply counter_inv_step.
Qed.

(** *** The stable sort *)

Lemma insert_desc_perm x l : insert_desc x l ≡ₚ x :: l.
Proof.
  induction l as [|y l IH]; simpl; [done|].
  destruct (snd y <=? snd x)%nat; [done|]. rewrite IH. apply Permutation_swap.
Qed.

Lemma sorted_desc_perm c : sorted_desc c ≡ₚ c.
Proof.
  induction c as [|x c IH]; simpl; [done|]. by rewrite insert_desc_perm, IH.
Qed.

Lemma insert_desc_sorted ws x l :
  StronglySorted (entry_before ws) l ->
  Forall (fun y => before ws (fst x) (fst y)) l ->
  StronglySorted (entry_before ws) (insert_desc x l).
Proof.
  induction 1 as [|y l Hs IH Hy]; intros Hx; simpl.
  - repeat constructor.
  - apply Forall_cons in Hx as [Hxy Hx].
    destruct (Nat.leb_spec (snd y) (snd x)) as [Hle|Hlt].
    + constructor; [by constructor|].
      constructor.
      * unfold entry_before. destruct (decide (snd y = snd x)); [right|left]; [done|lia].
      * apply Forall_forall. intros z Hz.
        eapply Forall_forall in Hy; [|done]. eapply Forall_forall in Hx; [|done].
        unfold entry_before in *. destruct (decide (snd z = snd x)); [right|left]; [done|lia].
    + constructor; [by apply IH|].
      rewrite insert_desc_perm. constructor; [|done].
      left. done.
Qed.

Lemma sorted_desc_sorted ws c :
  StronglySorted (before ws) c.*1 -> StronglySorted (entry_before ws) (sorted_desc c).
Proof.
  induction c as [|x c IH]; [constructor|].
  rewrite fmap_cons. intros [Hx Hc]%StronglySorted_cons. simpl. apply insert_desc_sorted; [by apply IH|].
  rewrite sorted_desc_perm. by rewrite Forall_fmap in Hx.
Qed.

Lemma StronglySorted_take {A} (R : relation A) n l :
  StronglySorted R l -> StronglySorted R (take n l).
Proof.
  intros H. rewrite <- (take_drop n l) in H. by apply StronglySorted_app_1_l in H.
Qed.

Lemma StronglySorted_fmap_in {A B} (f : A -> B) (R : relation A) (R' : relation B) l :
  StronglySorted R l ->
  (forall a b, a ∈ l -> b ∈ l -> R a b -> R' (f a) (f b)) ->
  StronglySorted R' (f <$> l).
Proof.
  induction 1 as [|a l Hs IH Hall]; intros Himp; csimpl; constructor.
  - apply IH. intros x y Hx Hy. apply Himp; by apply elem_of_cons; right.
  - apply Forall_fmap, Forall_forall. intros y Hy. apply Himp; [left|by right|].
    by eapply Forall_forall in Hall.
Qed.

(** *** The keywords *)

Example extract_keywords_ties :
  extract_keywords "b a a_1 B. c c c; x86 the THEM them Them" 3 = ["them"; "a_1"; "x86"].
Proof. by vm_compute. Qed.

Example extract_keywords_all_stopwords :
  extract_keywords "We propose this approach, based on the method of the paper" 10 = [].
Proof. by vm_compute. Qed.





(** C6 (as claimed): on the scenario text the extractor does not return
    the four words of the claim: [uses] is not a stopword and is kept. *)
Lemma scenario_keywords_not_four :
  extract_keywords
    "The model uses attention based transformers. Transformers are powerful." 10
  <> ["transformers"; "model"; "attention"; "powerful"].
Proof. vm_compute. discriminate. Qed.

(** C6 (amended): on the scenario text the extractor returns
    [transformers] (twice in the text) first, then [model], [uses],
    [attention] and [powerful] in the order of their first occurrence;
    [the], [based] and [are] are stopwords, [uses] is not. *)
Theorem scenario_keywords :
  extract_keywords
    "The model uses attention based transformers. Transformers are powerful." 10
  = ["transformers"; "model"; "uses"; "attention"; "powerful"]
  /\ ("uses" ∉ STOPWORDS)
  /\ ("the" ∈ STOPWORDS) /\ ("based" ∈ STOPWORDS) /\ ("are" ∈ STOPWORDS).
Proof. split_and!; by vm_compute. Qed.

End KeywordsFacts.

(** ** The fan-out of one paper *)

Module LoadDataFacts.
Import Py Dynamo LoadData.

Lemma for_each_ok {A B} (f : A -> result B) (g : A -> B) l :
  (forall x, f x = Ok (g x)) -> for_each f l = Ok (g <$> l).
Proof.
  intros Hf. induction l as [|x l IH]; simpl; [done|]. by rewrite Hf, IH.
Qed.

Lemma category_item_record r c :
  category_item (rec_id r) (date_of r) (keywords_of r) (to_paper r) c = Ok (category_entry r c).
Proof. reflexivity. Qed.

Lemma author_item_record r a :
  author_item (rec_id r) (date_of r) (to_paper r) a = Ok (author_entry r a).
Proof. reflexivity. Qed.

Lemma keyword_item_record r k :
  keyword_item (rec_id r) (date_of r) (to_paper r) k = Ok (keyword_entry r k).
Proof. reflexivity. Qed.

(** On a record, [transform_paper] returns the items of [expand]. *)
Lemma transform_paper_record r : transform_paper (to_paper r) = Ok (expand r).
Proof.
  unfold transform_paper.
  change (Keywords.extract_keywords (default "" (p_abstract (to_paper r))) 10)
    with (keywords_of r).
  cbn [to_paper p_arxiv_id p_published p_categories p_authors default subscript
       mbind result_bind bind].
  change (slice10 (rec_published r)) with (date_of r).
  rewrite (for_each_ok _ _ _ (category_item_record r)).
  rewrite (for_each_ok _ _ _ (author_item_record r)).
  rewrite (for_each_ok _ _ _ (keyword_item_record r)).
  reflexivity.
Qed.

Lemma main_records rs : main (to_paper <$> rs) = Ok (loaded rs).
Proof.
  unfold main, loaded.
  assert (H : for_each transform_paper (to_paper <$> rs) = Ok (expand <$> rs)).
  { induction rs as [|r rs IH]; [done|].
    rewrite !fmap_cons. cbn [for_each]. rewrite transform_paper_record, IH. done. }
  by rewrite H.
Qed.

Lemma filter_all {A} (f : A -> bool) l :
  Forall (fun x => f x = true) l -> List.filter f l = l.
Proof. induction 1 as [|x l Hx _ IH]; simpl; [done|]. by rewrite Hx, IH. Qed.

Lemma filter_none {A} (f : A -> bool) l :
  Forall (fun x => f x = false) l -> List.filter f l = [].
Proof. induction 1 as [|x l Hx _ IH]; simpl; [done|]. by rewrite Hx, IH. Qed.

Lemma count_kind_app kind a b : count_kind kind (a ++ b) = count_kind kind a + count_kind kind b.
Proof. unfold count_kind. by rewrite List.filter_app, length_app. Qed.

Lemma count_kind_all kind {A} (g : A -> Item) l :
  (forall x, kind (g x) = true) -> count_kind kind (g <$> l) = length l.
Proof.
  intros H. unfold count_kind. rewrite filter_all, length_fmap; [done|].
  apply Forall_fmap, Forall_forall. auto.
Qed.

Lemma count_kind_none kind {A} (g : A -> Item) l :
  (forall x, kind (g x) = false) -> count_kind kind (g <$> l) = 0.
Proof.
  intros H. unfold count_kind. rewrite filter_none; [done|].
  apply Forall_fmap, Forall_forall. auto.
Qed.

Lemma prefix_empty s : String.prefix "" s = true.
Proof. by destruct s. Qed.

Lemma prefix_app p s : String.prefix p (p +:+ s) = true.
Proof.
  induction p as [|c p IH]; simpl; [apply prefix_empty|].
  destruct (ascii_dec c c); [done|congruence].
Qed.

(** C1: for every record, [transform_paper] produces exactly one canonical
    by-id item, one by-category item per category, one by-author item per
    author and one by-keyword item per extracted keyword, and nothing else;
    there are at most 10 keyword items. *)
Theorem transform_paper_fan_out (r : record) :
  exists its, transform_paper (to_paper r) = Ok its /\
    count_kind is_id_item its = 1 /\
    count_kind is_category_item its = length (rec_categories r) /\
    count_kind is_author_item its = length (rec_authors r) /\
    count_kind is_keyword_item its =
      length (Keywords.extract_keywords (rec_abstract r) 10) /\
    count_kind is_keyword_item its <= 10 /\
    length its = 1 + length (rec_categories r) + length (rec_authors r)
                 + count_kind is_keyword_item its.
Proof.
  exists (expand r). split; [apply transform_paper_record|].
  assert (Hkw : count_kind is_keyword_item (expand r) = length (keywords_of r)).
  { unfold expand. rewrite !count_kind_app.
    rewrite (count_kind_none is_keyword_item (category_entry r)) by (intros; reflexivity).
    rewrite (count_kind_none is_keyword_item (author_entry r)) by (intros; reflexivity).
    rewrite (count_kind_all is_keyword_item (keyword_entry r)) by (intros; reflexivity).
    unfold count_kind. simpl. lia. }
  split_and!.
  - unfold expand. rewrite !count_kind_app.
    rewrite (count_kind_none is_id_item (category_entry r)) by (intros; reflexivity).
    rewrite (count_kind_none is_id_item (author_entry r))
      by (intros; apply andb_false_intro2; reflexivity).
    rewrite (count_kind_none is_id_item (keyword_entry r))
      by (intros; apply andb_false_intro2; reflexivity).
    unfold count_kind, is_id_item. cbn [List.filter id_entry PK SK arxiv_id].
    by rewrite String.eqb_refl.
  - unfold expand. rewrite !count_kind_app.
    rewrite (count_kind_all is_category_item (category_entry r))
      by (intros; apply (prefix_app "CATEGORY#")).
    rewrite (count_kind_none is_category_item (author_entry r)) by (intros; reflexivity).
    rewrite (count_kind_none is_category_item (keyword_entry r)) by (intros; reflexivity).
    unfold count_kind. simpl. lia.
  - unfold expand. rewrite !count_kind_app.
    rewrite (count_kind_none is_author_item (category_entry r)) by (intros; reflexivity).
    rewrite (count_kind_all is_author_item (author_entry r)) by (intros; reflexivity).
    rewrite (count_kind_none is_author_item (keyword_entry r)) by (intros; reflexivity).
    unfold count_kind. simpl. lia.
  - done.
  - rewrite Hkw. unfold keywords_of.
    unfold Keywords.extract_keywords, Keywords.most_common.
    rewrite length_fmap, length_take. lia.
  - rewrite Hkw. unfold expand. rewrite !length_app, !length_fmap. simpl. lia.
Qed.

Lemma only_key_error_bind {A B} (m : result A) (f : A -> result B) :
  only_key_error m -> (forall a, only_key_error (f a)) -> only_key_error (m ≫= f).
Proof. destruct m; simpl; auto. Qed.

Lemma only_key_error_subscript {A} key (o : option A) : only_key_error (subscript key o).
Proof. destruct o; simpl; eauto. Qed.

Lemma only_key_error_for_each {A B} (f : A -> result B) l :
  (forall x, only_key_error (f x)) -> only_key_error (for_each f l).
Proof.
  intros Hf. induction l as [|x l IH]; simpl; [done|].
  apply (only_key_error_bind (f x)); [done|]. intros y.
  apply (only_key_error_bind (for_each f l)); [done|]. by intros.
Qed.

Ltac key_errors :=
  repeat (apply only_key_error_bind; [apply only_key_error_subscript|intros ?]);
  try exact I.

Lemma transform_paper_only_key_error p : only_key_error (transform_paper p).
Proof.
  unfold transform_paper.
  apply only_key_error_bind; [apply only_key_error_subscript|intros id].
  apply only_key_error_bind; [apply only_key_error_subscript|intros pub].
  apply only_key_error_bind.
  { apply only_key_error_for_each. intros c. unfold category_item. key_errors. }
  intros cs. apply only_key_error_bind.
  { apply only_key_error_for_each. intros a. unfold author_item. key_errors. }
  intros au. apply only_key_error_bind.
  { apply only_key_error_for_each. intros k. unfold keyword_item. key_errors. }
  intros ks. apply only_key_error_bind; [unfold paper_id_item; key_errors|].
  by intros.
Qed.

Lemma expand_embeds_id r : Forall (embeds_id (rec_id r)) (expand r).
Proof.
  unfold expand. rewrite !Forall_app, !Forall_fmap. split_and!.
  - apply Forall_forall. intros c _. split; [done|]. right. by exists (date_of r).
  - apply Forall_forall. intros a _. split; [done|]. by left.
  - apply Forall_forall. intros k _. split; [done|]. by left.
  - repeat constructor.
Qed.

(** C8 (as claimed): a record whose id contains the delimiter is not
    rejected; its items are returned, with the [#] of the id inside the
    keys. *)
Lemma delimiter_in_id_not_rejected :
  let r := {| rec_id := "2401#00001"; rec_title := "T"; rec_authors := [];
              rec_abstract := ""; rec_categories := ["cs.AI"];
              rec_published := "2024-01-01T00:00:00Z" |} in
  exists its, transform_paper (to_paper r) = Ok its /\
    PK <$> its = ["CATEGORY#cs.AI"; "ARXIV#2401#00001"] /\
    SK <$> its = ["2024-01-01#2401#00001"; "ARXIV#2401#00001"].
Proof.
  intros r. eexists. split_and!; [by vm_compute|by vm_compute|by vm_compute].
Qed.

(** C8 (amended): [transform_paper] checks no delimiter. For every record,
    whatever characters its id has, it returns the items, and each item
    carries the id unchanged in its keys; on any paper, the only exception
    it raises is the [KeyError] of a missing key. *)
Theorem transform_paper_keeps_id (r : record) :
  (exists its, transform_paper (to_paper r) = Ok its /\ Forall (embeds_id (rec_id r)) its) /\
  (forall p, only_key_error (transform_paper p)).
Proof.
  split.
  - exists (expand r). split; [apply transform_paper_record|apply expand_embeds_id].
  - apply transform_paper_only_key_error.
Qed.

(** *** Writing items *)

Lemma batch_write_indexes its : forall t, indexes (batch_write t its) = indexes t.
Proof.
  induction its as [|x its IH]; intros t; simpl; [done|].
  unfold batch_write in *. simpl. by rewrite IH.
Qed.

(** After a batch of writes, a key holds the last item written under it,
    or what it held before. *)
Lemma batch_write_lookup its : forall t k,
  items (batch_write t its) !! k =
    match last_put k its with
    | Some v => Some v
    | None => items t !! k
    end.
Proof.
  induction its as [|x its IH]; intros t k; [done|].
  change (batch_write t (x :: its)) with (batch_write (put_item t x) its).
  rewrite IH. simpl. destruct (last_put k its); [done|].
  rewrite lookup_insert. by destruct (decide (primary_key x = k)).
Qed.

Lemma last_put_Some k its v : last_put k its = Some v -> v ∈ its /\ primary_key v = k.
Proof.
  induction its as [|x its IH]; simpl; [done|].
  destruct (last_put k its) as [w|].
  - intros [= <-]. destruct IH as [? ?]; [done|]. split; [by right|done].
  - destruct (decide (primary_key x = k)); [|done]. intros [= <-]. split; [by left|done].
Qed.

Lemma last_put_None k its : last_put k its = None -> forall v, v ∈ its -> primary_key v <> k.
Proof.
  induction its as [|x its IH]; simpl; [by intros _ v ?%elem_of_nil|].
  destruct (last_put k its) as [w|]; [done|].
  destruct (decide (primary_key x = k)); [done|].
  intros _ v [->|Hv]%elem_of_cons; [done|]. by apply IH.
Qed.

(** An item is found under its key when every item written under that key
    is equal to it. *)
Lemma batch_write_lookup_unique t its v :
  v ∈ its ->
  (forall w, w ∈ its -> primary_key w = primary_key v -> w = v) ->
  items (batch_write t its) !! primary_key v = Some v.
Proof.
  intros Hv Huniq. rewrite batch_write_lookup.
  destruct (last_put (primary_key v) its) as [w|] eqn:E.
  - apply last_put_Some in E as [Hw Hk]. by rewrite (Huniq w Hw Hk).
  - by destruct (last_put_None _ _ E v Hv).
Qed.

Lemma Table_eq (t1 t2 : Table) :
  items t1 = items t2 -> indexes t1 = indexes t2 -> t1 = t2.
Proof. destruct t1, t2; simpl; by intros -> ->. Qed.


(** Every item of a loaded table was produced from one of the records and
    sits under its own primary key. *)
Lemma loaded_lookup rs k it :
  items (loaded rs) !! k = Some it ->
  k = primary_key it /\ exists r, r ∈ rs /\ it ∈ expand r.
Proof.
  unfold loaded. rewrite batch_write_lookup.
  destruct (last_put k _) as [v|] eqn:E; [|done].
  intros [= ->]. apply last_put_Some in E as [Hin Hk]. split; [done|].
  apply list_elem_of_join in Hin as (l & Hit & Hl).
  apply list_elem_of_fmap in Hl as (r & -> & Hr). eauto.
Qed.

Lemma stored_lookup (t : Table) it :
  it ∈ stored t <-> exists k, items t !! k = Some it.
Proof.
  unfold stored. rewrite list_elem_of_fmap. split.
  - intros ([k v] & -> & Hin). apply elem_of_map_to_list in Hin. eauto.
  - intros [k Hk]. exists (k, it). split; [done|]. by apply elem_of_map_to_list.
Qed.

Lemma loaded_stored rs it :
  it ∈ stored (loaded rs) ->
  items (loaded rs) !! primary_key it = Some it /\ exists r, r ∈ rs /\ it ∈ expand r.
Proof.
  intros [k Hk]%stored_lookup. destruct (loaded_lookup _ _ _ Hk) as [-> ?]. done.
Qed.



End LoadDataFacts.

(** ** Queries on a table *)

Module DynamoFacts.
Import Py Dynamo LoadData StrOrder StrOrderFacts.

#[global] Instance sort_le_trans ix : Transitive (sort_le ix).
Proof. intros a b c. unfold sort_le. apply le_trans. Qed.

#[global] Instance sort_le_total ix : Total (sort_le ix).
Proof. intros a b. unfold sort_le. apply le_total. Qed.

Lemma StronglySorted_reverse {A} (R : relation A) l :
  StronglySorted R l -> StronglySorted (flip R) (reverse l).
Proof.
  induction 1 as [|x l Hs IH Hx]; [constructor|].
  rewrite reverse_cons. apply KeywordsFacts.StronglySorted_snoc; [done|].
  rewrite Forall_forall in Hx.
  apply Forall_forall. intros y Hy. rewrite elem_of_reverse in Hy. unfold flip. by apply Hx.
Qed.

(** The order in which a query returns its items. *)
Lemma select_sorted t req :
  StronglySorted
    (if ScanIndexForward req then sort_le (IndexName req) else flip (sort_le (IndexName req)))
    (select t req).
Proof.
  unfold select.
  set (asc := merge_sort _ _).
  assert (Hasc : StronglySorted (sort_le (IndexName req)) asc)
    by (apply (StronglySorted_merge_sort (sort_le (IndexName req)))).
  assert (Hord : StronglySorted
    (if ScanIndexForward req then sort_le (IndexName req) else flip (sort_le (IndexName req)))
    (if ScanIndexForward req then asc else reverse asc)).
  { destruct (ScanIndexForward req); [done|]. by apply StronglySorted_reverse. }
  destruct (Limit req); [|done]. by apply KeywordsFacts.StronglySorted_take.
Qed.

Lemma select_subset t req it :
  it ∈ select t req -> it ∈ stored t /\ matches req it = true.
Proof.
  unfold select. intros Hin.
  assert (Hord : it ∈ (if ScanIndexForward req
                       then merge_sort (sort_le (IndexName req)) (found t req)
                       else reverse (merge_sort (sort_le (IndexName req)) (found t req)))).
  { destruct (Limit req); [by apply subseteq_take in Hin|done]. }
  assert (Hf : it ∈ found t req).
  { destruct (ScanIndexForward req); [|rewrite elem_of_reverse in Hord];
      by rewrite merge_sort_Permutation in Hord. }
  apply list_elem_of_In, filter_In in Hf as [Hs Hm]. by apply list_elem_of_In in Hs.
Qed.

(** A query whose limit is absent, or not below the number of matching
    items, returns every matching item. *)
Lemma select_all t req it :
  match Limit req with
  | Some n => (Z.of_nat (length (found t req)) <= n)%Z
  | None => True
  end ->
  it ∈ stored t -> matches req it = true -> it ∈ select t req.
Proof.
  intros Hlim Hs Hm. unfold select.
  assert (Hf : it ∈ found t req).
  { apply list_elem_of_In, filter_In. split; [by apply list_elem_of_In|done]. }
  set (asc := merge_sort _ _).
  assert (Hlen : length asc = length (found t req)).
  { unfold asc. by rewrite merge_sort_Permutation. }
  assert (Hasc : it ∈ asc) by (unfold asc; by rewrite merge_sort_Permutation).
  assert (Hord : it ∈ (if ScanIndexForward req then asc else reverse asc)).
  { destruct (ScanIndexForward req); [done|]. by rewrite elem_of_reverse. }
  destruct (Limit req) as [n|]; [|done].
  rewrite take_ge; [done|].
  destruct (ScanIndexForward req); rewrite ?length_reverse; lia.
Qed.

End DynamoFacts.

(** ** The access patterns of query_papers.py *)

Module QueryPapersFacts.
Import Py Dynamo LoadData StrOrder StrOrderFacts LoadDataFacts DynamoFacts QueryPapers.

Lemma expand_cases r it :
  it ∈ expand r ->
  (exists c, c ∈ rec_categories r /\ it = category_entry r c) \/
  (exists a, a ∈ rec_authors r /\ it = author_entry r a) \/
  (exists k, k ∈ keywords_of r /\ it = keyword_entry r k) \/
  it = id_entry r.
Proof.
  unfold expand. rewrite !elem_of_app, !list_elem_of_fmap, list_elem_of_singleton.
  intros [(c & -> & ?)|[(a & -> & ?)|[(k & -> & ?)| ->]]]; eauto 6.
Qed.

Lemma substring_length n : forall s,
  String.length (String.substring 0 n s) = Nat.min n (String.length s).
Proof.
  induction n as [|n IH]; intros [|c s]; simpl; try done. by rewrite IH.
Qed.

Lemma dated_length r : dated r -> String.length (LoadData.date_of r) = 10.
Proof.
  unfold dated, LoadData.date_of, slice10. rewrite substring_length. lia.
Qed.

(** The items of a [CATEGORY#] partition are category items. *)
Lemma category_partition rs it category :
  it ∈ stored (loaded rs) -> PK it = "CATEGORY#" +:+ category ->
  exists r, r ∈ rs /\ category ∈ rec_categories r /\ it = category_entry r category.
Proof.
  intros [_ (r & Hr & Hit)]%loaded_stored Hpk. exists r. split; [done|].
  apply expand_cases in Hit as [(c & Hc & ->)|[(a & _ & ->)|[(k & _ & ->)| ->]]];
    simpl in Hpk; try discriminate.
  injection Hpk as ->. done.
Qed.

Lemma matches_table hash bounds fwd lim it :
  matches {| IndexName := None; hash_eq := hash; range_between := bounds;
             ScanIndexForward := fwd; Limit := lim |} it = true <->
  PK it = hash /\ in_bounds bounds (SK it) = true.
Proof.
  unfold matches. simpl. rewrite andb_true_iff, String.eqb_eq. done.
Qed.

(** Sort keys [<date>#<id>] with dates of one length compare by date
    first, then by id. *)
Lemma sort_key_le d1 id1 d2 id2 :
  String.length d1 = String.length d2 ->
  le (d1 +:+ "#" +:+ id1) (d2 +:+ "#" +:+ id2) <->
  lt d1 d2 \/ (d1 = d2 /\ le id1 id2).
Proof.
  intros Hlen. unfold le at 1. unfold String.leb.
  rewrite (compare_app_len d1 d2 _ _ Hlen).
  rewrite lt_iff. destruct (String.compare d1 d2) eqn:E.
  - apply String.compare_eq_iff in E as ->.
    change ("#" +:+ id1) with (String "#" id1). change ("#" +:+ id2) with (String "#" id2).
    simpl. unfold le, String.leb.
    split; [by right|]. intros [?|[_ ?]]; [done|done].
  - split; [by left|done].
  - split; [done|]. intros [?|[-> _]]; [done|]. by rewrite compare_refl in E.
Qed.

Lemma recent_outcome t category limit :
  outcome (query_recent_in_category t category limit) =
    if (1 <=? limit)%Z then
      Ok (listing (select t {| IndexName := None; hash_eq := "CATEGORY#" +:+ category;
                               range_between := None; ScanIndexForward := false;
                               Limit := Some limit |}))
    else Raise ParamValidationError.
Proof.
  unfold query_recent_in_category, query, valid_limit. simpl.
  by destruct (1 <=? limit)%Z.
Qed.

(** C3: for every category and limit, on a table loaded from records whose
    [published] starts with a ten-character date, the results of
    [query_recent_in_category] are in non-increasing order of date, and
    results of one date are in descending order of id, which is the
    descending order of the sort keys [<date>#<id>] written at ingestion. A
    limit below 1 gives no results but the client's validation error. *)
Theorem recent_in_category_order (rs : list record) (category : string) (limit : Z) :
  Forall dated rs ->
  match outcome (query_recent_in_category (loaded rs) category limit) with
  | Ok res =>
      (1 <= limit)%Z /\
      StronglySorted newer_first (results res) /\
      StronglySorted (fun a b => le (encoded_sort_key b) (encoded_sort_key a)) (results res)
  | Raise _ => (limit < 1)%Z
  end.
Proof.
  intros Hdated. rewrite recent_outcome.
  destruct (Z.leb_spec 1 limit) as [Hlim|Hlim]; [|done].
  split; [done|].
  set (req := {| IndexName := None; hash_eq := "CATEGORY#" +:+ category;
                 range_between := None; ScanIndexForward := false; Limit := Some limit |}).
  pose proof (select_sorted (loaded rs) req) as Hsorted. simpl in Hsorted.
  assert (Hshape : forall it, it ∈ select (loaded rs) req ->
            exists r, dated r /\ it = category_entry r category).
  { intros it [Hst [Hpk _]%matches_table]%select_subset.
    destruct (category_partition _ _ _ Hst Hpk) as (r & Hr & _ & ->).
    exists r. split; [|done]. by eapply Forall_forall in Hdated. }
  assert (Hkey : forall a b, a ∈ select (loaded rs) req -> b ∈ select (loaded rs) req ->
            flip (sort_le None) a b ->
            le (encoded_sort_key (project b)) (encoded_sort_key (project a)) /\
            newer_first (project a) (project b)).
  { intros a b (ra & Hda & ->)%Hshape (rb & Hdb & ->)%Hshape Hab.
    unfold flip, sort_le, sort_key in Hab. simpl in Hab.
    split; [exact Hab|].
    apply sort_key_le in Hab; [|by rewrite !dated_length].
    unfold newer_first. destruct Hab as [?|[Heq ?]]; [by left|right].
    split; [by symmetry|done]. }
  simpl. split.
  - eapply KeywordsFacts.StronglySorted_fmap_in; [exact Hsorted|].
    intros a b Ha Hb Hab. by apply Hkey.
  - eapply KeywordsFacts.StronglySorted_fmap_in; [exact Hsorted|].
    intros a b Ha Hb Hab. by apply Hkey.
Qed.

(** The two-paper scenario: the paper of 2024-01-02 comes first in
    [cs.AI], and [cs.CL] holds exactly one paper. *)
Example recent_in_category_scenario :
  exists ai cl,
    outcome (query_recent_in_category (loaded Fixture.papers) "cs.AI" 10) = Ok ai /\
    outcome (query_recent_in_category (loaded Fixture.papers) "cs.CL" 10) = Ok cl /\
    r_arxiv_id <$> results ai = ["2401.00002"; "2401.00001"] /\
    count ai = 2 /\ count cl = 1.
Proof. eexists _, _. split_and!; by vm_compute. Qed.

Lemma recent_in_category_order_witness :
  Forall dated Fixture.papers /\
  match outcome (query_recent_in_category (loaded Fixture.papers) "cs.AI" 10) with
  | Ok res =>
      (1 <= 10)%Z /\
      StronglySorted newer_first (results res) /\
      StronglySorted (fun a b => le (encoded_sort_key b) (encoded_sort_key a)) (results res)
  | Raise _ => (10 < 1)%Z
  end.
Proof.
  assert (H : Forall dated Fixture.papers).
  { repeat apply Forall_cons_2; [unfold dated; simpl; lia..|apply Forall_nil_2]. }
  split; [exact H|].
  exact (recent_in_category_order Fixture.papers "cs.AI" 10 H).
Defined.

Lemma range_outcome t category d1 d2 :
  outcome (query_papers_in_date_range t category d1 d2) =
    if String.leb (d1 +:+ "#") (d2 +:+ "#zzzzzzzz") then
      Ok (listing (select t {| IndexName := None; hash_eq := "CATEGORY#" +:+ category;
                               range_between := Some (d1 +:+ "#", d2 +:+ "#zzzzzzzz");
                               ScanIndexForward := true; Limit := None |}))
    else Raise (ClientError "ValidationException").
Proof.
  unfold query_papers_in_date_range, query, valid_range. simpl.
  by destruct (String.leb (d1 +:+ "#") (d2 +:+ "#zzzzzzzz")).
Qed.

(** The bounds of the range query are in order exactly when the dates are. *)
Lemma range_bounds_le d1 d2 :
  String.length d1 = String.length d2 ->
  String.leb (d1 +:+ "#") (d2 +:+ "#zzzzzzzz") = true <-> le d1 d2.
Proof.
  intros Hlen. change (String.leb ?a ?b = true) with (le a b).
  change (d1 +:+ "#") with (d1 +:+ "#" +:+ "").
  change (d2 +:+ "#zzzzzzzz") with (d2 +:+ "#" +:+ "zzzzzzzz").
  rewrite (sort_key_le _ _ _ _ Hlen), (le_lt_or_eq d1 d2).
  split; intros [?|?]; auto; right; [tauto|done].
Qed.

Lemma lower_bound_le d1 d id :
  String.length d1 = String.length d ->
  le (d1 +:+ "#") (d +:+ "#" +:+ id) <-> le d1 d.
Proof.
  intros Hlen. change (d1 +:+ "#") with (d1 +:+ "#" +:+ "").
  rewrite (sort_key_le _ _ _ _ Hlen), (le_lt_or_eq d1 d).
  split; intros [?|?]; auto.
  - right. tauto.
  - right. split; [done|]. by destruct id.
Qed.

Lemma upper_bound_le d d2 id :
  String.length d = String.length d2 -> le id "zzzzzzzz" ->
  le (d +:+ "#" +:+ id) (d2 +:+ "#zzzzzzzz") <-> le d d2.
Proof.
  intros Hlen Hid. change (d2 +:+ "#zzzzzzzz") with (d2 +:+ "#" +:+ "zzzzzzzz").
  rewrite (sort_key_le _ _ _ _ Hlen), (le_lt_or_eq d d2).
  split; intros [?|?]; auto. right. tauto.
Qed.

(** C4 (as claimed): a paper whose id sorts after [zzzzzzzz] and whose date
    is the end date of the range is returned by the recent-in-category
    query, its date is in the range, and the date-range query misses it. *)
Lemma date_range_misses_high_id :
  let r := {| rec_id := "~1"; rec_title := "T"; rec_authors := ["A"];
              rec_abstract := ""; rec_categories := ["cs.AI"];
              rec_published := "2024-01-01T00:00:00Z" |} in
  let p := {| r_arxiv_id := "~1"; r_title := "T"; r_authors := ["A"];
              r_published := "2024-01-01T00:00:00Z"; r_categories := ["cs.AI"] |} in
  outcome (query_recent_in_category (loaded [r]) "cs.AI" 20) =
    Ok {| results := [p]; count := 1 |} /\
  in_date_range "2024-01-01" "2024-01-01" p /\
  outcome (query_papers_in_date_range (loaded [r]) "cs.AI" "2024-01-01" "2024-01-01") =
    Ok {| results := []; count := 0 |}.
Proof. split_and!; by vm_compute. Qed.

(** The date-range query with its dates in reverse order: the service
    rejects the key condition, no empty list is returned. *)
Example date_range_reversed_dates_rejected :
  outcome (query_papers_in_date_range (loaded Fixture.papers) "cs.AI"
             "2024-01-02" "2024-01-01") = Raise (ClientError "ValidationException").
Proof. by vm_compute. Qed.

(** C4 (amended): on a table loaded from dated records whose ids do not
    sort after [zzzzzzzz], for every category and every pair of
    ten-character dates [d1], [d2] with [d1] not after [d2] (equal dates
    included), the date-range query returns exactly those results of the
    recent-in-category query, run with a limit that cuts nothing, whose
    date lies in the inclusive range. With [d1] after [d2] the date-range
    query returns no list: the key condition is rejected with a
    [ValidationException]. *)
Theorem date_range_is_filtered_recent
    (rs : list record) (category d1 d2 : string) (limit : Z) :
  Forall dated rs -> Forall below_sentinel rs ->
  String.length d1 = 10 -> String.length d2 = 10 ->
  (1 <= limit)%Z -> (Z.of_nat (category_size (loaded rs) category) <= limit)%Z ->
  exists recent,
    outcome (query_recent_in_category (loaded rs) category limit) = Ok recent /\
    match outcome (query_papers_in_date_range (loaded rs) category d1 d2) with
    | Ok ranged =>
        le d1 d2 /\
        forall p, p ∈ results ranged <-> p ∈ results recent /\ in_date_range d1 d2 p
    | Raise e => lt d2 d1 /\ e = ClientError "ValidationException"
    end.
Proof.
  intros Hdated Hids Hd1 Hd2 Hlim Hsize.
  rewrite range_outcome, recent_outcome.
  destruct (Z.leb_spec 1 limit) as [_|?]; [|lia].
  eexists. split; [done|].
  assert (Hlen12 : String.length d1 = String.length d2) by congruence.
  pose proof (range_bounds_le d1 d2 Hlen12) as Hrb.
  destruct (String.leb (d1 +:+ "#") (d2 +:+ "#zzzzzzzz")) eqn:Hvalid.
  2:{ split; [|done]. apply not_le_lt. intros Hle. apply Hrb in Hle. congruence. }
  split; [by apply Hrb|].
  set (t := loaded rs).
  set (ranged := {| IndexName := None; hash_eq := "CATEGORY#" +:+ category;
                    range_between := Some (d1 +:+ "#", d2 +:+ "#zzzzzzzz");
                    ScanIndexForward := true; Limit := None |}).
  set (recent := {| IndexName := None; hash_eq := "CATEGORY#" +:+ category;
                    range_between := None; ScanIndexForward := false;
                    Limit := Some limit |}).
  assert (Hbounds : forall r, r ∈ rs ->
            in_bounds (range_between ranged) (SK (category_entry r category)) = true <->
            in_date_range d1 d2 (project (category_entry r category))).
  { intros r Hr. unfold in_date_range.
    change (in_bounds (range_between ranged) (SK (category_entry r category)))
      with (String.leb (d1 +:+ "#") (LoadData.date_of r +:+ "#" +:+ rec_id r) &&
            String.leb (LoadData.date_of r +:+ "#" +:+ rec_id r) (d2 +:+ "#zzzzzzzz")).
    change (date_of (project (category_entry r category))) with (LoadData.date_of r).
    assert (Hlen : String.length (LoadData.date_of r) = 10).
    { apply dated_length. by eapply Forall_forall in Hdated. }
    assert (Hid : le (rec_id r) "zzzzzzzz") by (by eapply Forall_forall in Hids).
    rewrite andb_true_iff.
    change (String.leb ?a ?b = true) with (le a b).
    rewrite lower_bound_le by congruence.
    rewrite upper_bound_le by (congruence || done). done. }
  intros p. simpl. rewrite !list_elem_of_fmap. split.
  - intros (it & -> & Hin).
    apply select_subset in Hin as [Hst [Hpk Hb]%matches_table].
    destruct (category_partition _ _ _ Hst Hpk) as (r & Hr & _ & ->).
    split; [|by apply Hbounds].
    exists (category_entry r category). split; [done|].
    apply select_all; [exact Hsize|done|]. by apply matches_table.
  - intros [(it & -> & Hin) Hrange].
    apply select_subset in Hin as [Hst [Hpk _]%matches_table].
    destruct (category_partition _ _ _ Hst Hpk) as (r & Hr & _ & ->).
    exists (category_entry r category). split; [done|].
    apply select_all; [done|done|]. apply matches_table. split; [done|].
    by apply Hbounds.
Qed.

Lemma date_range_is_filtered_recent_witness :
  exists recent,
    outcome (query_recent_in_category (loaded Fixture.papers) "cs.AI" 20) = Ok recent /\
    match outcome (query_papers_in_date_range (loaded Fixture.papers) "cs.AI"
                     "2024-01-02" "2024-01-31") with
    | Ok ranged =>
        le "2024-01-02" "2024-01-31" /\
        forall p, p ∈ results ranged <->
                  p ∈ results recent /\ in_date_range "2024-01-02" "2024-01-31" p
    | Raise e => lt "2024-01-31" "2024-01-02" /\ e = ClientError "ValidationException"
    end.
Proof.
  apply (date_range_is_filtered_recent Fixture.papers "cs.AI" "2024-01-02" "2024-01-31" 20).
  - repeat apply Forall_cons_2; [unfold dated; simpl; lia..|apply Forall_nil_2].
  - repeat apply Forall_cons_2; [reflexivity..|apply Forall_nil_2].
  - reflexivity.
  - reflexivity.
  - lia.
  - apply Z.leb_le. vm_compute. reflexivity.
Defined.

(** *** The paper-id index *)

Lemma loaded_indexes rs : indexes (loaded rs) = [AuthorIndex; PaperIdIndex; KeywordIndex].
Proof. unfold loaded. by rewrite batch_write_indexes. Qed.

Lemma elem_of_all_items rs r it : r ∈ rs -> it ∈ expand r -> it ∈ mjoin (expand <$> rs).
Proof.
  intros Hr Hit. apply list_elem_of_join. exists (expand r). split; [done|].
  by apply list_elem_of_fmap_2.
Qed.

Lemma id_entry_in_expand r : id_entry r ∈ expand r.
Proof. unfold expand. rewrite !elem_of_app, list_elem_of_singleton. auto. Qed.

(** The item stored under [(ARXIV#<id>, ARXIV#<id>)] is the canonical item
    of a record with that id. *)
Lemma canonical_stored rs r :
  r ∈ rs ->
  exists r', r' ∈ rs /\ rec_id r' = rec_id r /\
    items (loaded rs) !! ("ARXIV#" +:+ rec_id r, "ARXIV#" +:+ rec_id r) = Some (id_entry r').
Proof.
  intros Hr. unfold loaded. rewrite batch_write_lookup.
  destruct (last_put _ _) as [v|] eqn:E.
  - apply last_put_Some in E as [Hv Hk].
    apply list_elem_of_join in Hv as (l & Hv & Hl).
    apply list_elem_of_fmap in Hl as (r' & -> & Hr').
    exists r'. split; [done|].
    apply expand_cases in Hv as [(c & _ & ->)|[(a & _ & ->)|[(k & _ & ->)| ->]]];
      unfold primary_key in Hk; simpl in Hk; try discriminate.
    injection Hk as Hid _. by rewrite Hid.
  - exfalso. eapply (last_put_None _ _ E (id_entry r)); [|done].
    eapply elem_of_all_items; [done|apply id_entry_in_expand].
Qed.

Lemma matches_paper_id id it :
  matches (paper_id_query id) it = true <->
  GSI2PK it = Some ("ARXIV#" +:+ id) /\ is_Some (GSI2SK it).
Proof.
  unfold matches, paper_id_query. simpl.
  destruct (GSI2PK it) as [pk|], (GSI2SK it) as [sk|]; simpl;
    rewrite ?andb_true_r, ?String.eqb_eq; split;
    try (intros [[= ->] ?]; done); try (intros [? [? [=]]]; done); try done.
  intros ->. eauto.
Qed.

Lemma sorted_head {A} (R : relation A) l x :
  StronglySorted R l -> x ∈ l -> (forall y, y ∈ l -> y = x \/ ~ R y x) -> head l = Some x.
Proof.
  intros Hs Hx Hmin. destruct Hs as [|h tl Hs Hh]; [by apply elem_of_nil in Hx|].
  simpl. f_equal. apply elem_of_cons in Hx as [->|Hx]; [done|].
  destruct (Hmin h) as [?|Hn]; [by left|done|].
  exfalso. apply Hn. by eapply Forall_forall in Hh.
Qed.

Lemma get_paper_by_id_outcome rs id :
  outcome (get_paper_by_id (loaded rs) id) =
    Ok match select (loaded rs) (paper_id_query id) with
       | [] => {| results := []; count := 0 |}
       | i :: _ => {| results := [project i]; count := 1 |}
       end.
Proof.
  unfold get_paper_by_id, query, has_index. simpl.
  rewrite loaded_indexes. by destruct (select _ _).
Qed.

Example get_paper_by_id_unknown :
  outcome (get_paper_by_id (loaded Fixture.papers) "9999.99999") =
    Ok {| results := []; count := 0 |}.
Proof. by vm_compute. Qed.

(** C10: [get_paper_by_id] returns at most one result, on any table. On a
    loaded table, for the id of every loaded record, the one result is the
    projection of the canonical by-id item, the item stored under
    [(ARXIV#<id>, ARXIV#<id>)]: it is the first item of the paper-id index
    partition, every other item there being a by-category entry whose index
    sort key [CATEGORY#<c>] comes after [ARXIV#<id>]. *)
Theorem get_paper_by_id_canonical (rs : list record) (r : record) :
  r ∈ rs ->
  (forall (t : Table) (id : string),
     match outcome (get_paper_by_id t id) with
     | Ok res => count res <= 1 /\ length (results res) = count res
     | Raise _ => True
     end) /\
  exists r', r' ∈ rs /\ rec_id r' = rec_id r /\
    items (loaded rs) !! ("ARXIV#" +:+ rec_id r, "ARXIV#" +:+ rec_id r) = Some (id_entry r') /\
    is_id_item (id_entry r') = true /\
    head (select (loaded rs) (paper_id_query (rec_id r))) = Some (id_entry r') /\
    Forall (fun other => other = id_entry r' \/
              (is_category_item other = true /\
               lt (sort_key (Some PaperIdIndex) (id_entry r'))
                  (sort_key (Some PaperIdIndex) other)))
           (select (loaded rs) (paper_id_query (rec_id r))) /\
    outcome (get_paper_by_id (loaded rs) (rec_id r)) =
      Ok {| results := [project (id_entry r')]; count := 1 |}.
Proof.
  intros Hr. split.
  { intros t id. unfold get_paper_by_id, query. simpl.
    destruct (bool_decide (PaperIdIndex ∈ indexes t)); simpl; [|done].
    destruct (select t (paper_id_query id)); simpl; auto. }
  destruct (canonical_stored rs r Hr) as (r' & Hr' & Hid & Hstored).
  exists r'. split; [done|]. split; [done|]. split; [done|].
  assert (Hmember : id_entry r' ∈ select (loaded rs) (paper_id_query (rec_id r))).
  { apply select_all; [done| |].
    - apply stored_lookup. eauto.
    - apply matches_paper_id. simpl. rewrite Hid. eauto. }
  assert (Hothers : forall other, other ∈ select (loaded rs) (paper_id_query (rec_id r)) ->
            other = id_entry r' \/
            (is_category_item other = true /\
             lt (sort_key (Some PaperIdIndex) (id_entry r'))
                (sort_key (Some PaperIdIndex) other))).
  { intros other [Hst [Hpk _]%matches_paper_id]%select_subset.
    apply loaded_stored in Hst as [Hlook (r2 & Hr2 & Hin)].
    apply expand_cases in Hin as [(c & _ & ->)|[(a & _ & ->)|[(k & _ & ->)| ->]]];
      simpl in Hpk; try discriminate.
    - right. split; [exact (prefix_app "CATEGORY#" c)|reflexivity].
    - left. injection Hpk as Hid2.
      unfold primary_key in Hlook. simpl in Hlook. rewrite Hid2 in Hlook.
      simpl in Hstored. rewrite Hstored in Hlook. congruence. }
  assert (Hhead : head (select (loaded rs) (paper_id_query (rec_id r))) = Some (id_entry r')).
  { apply (sorted_head (sort_le (Some PaperIdIndex))); [|done|].
    - apply (select_sorted (loaded rs) (paper_id_query (rec_id r))).
    - intros y [->|[_ Hlt]]%Hothers; [by left|right].
      unfold sort_le. by apply lt_not_le. }
  split_and!.
  - unfold is_id_item. simpl. by rewrite String.eqb_refl.
  - done.
  - apply Forall_forall. exact Hothers.
  - rewrite get_paper_by_id_outcome.
    destruct (select (loaded rs) (paper_id_query (rec_id r))) as [|i l]; [done|].
    simpl in Hhead. by injection Hhead as ->.
Qed.

Lemma get_paper_by_id_canonical_witness :
  Fixture.paper_b ∈ Fixture.papers /\
  outcome (get_paper_by_id (loaded Fixture.papers) "2401.00002") =
    Ok {| results := [project (id_entry Fixture.paper_b)]; count := 1 |}.
Proof.
  assert (Hin : Fixture.paper_b ∈ Fixture.papers).
  { apply elem_of_cons. right. apply elem_of_cons. left. reflexivity. }
  split; [exact Hin|].
  destruct (get_paper_by_id_canonical Fixture.papers Fixture.paper_b Hin)
    as [_ (r' & _ & _ & Hstored & _ & _ & _ & Hout)].
  assert (Hr' : id_entry r' = id_entry Fixture.paper_b).
  { assert (Hl : items (loaded Fixture.papers) !! ("ARXIV#2401.00002", "ARXIV#2401.00002")
                 = Some (id_entry Fixture.paper_b)) by (vm_compute; reflexivity).
    simpl in Hstored. rewrite Hl in Hstored. congruence. }
  rewrite <- Hr'. exact Hout.
Defined.

End QueryPapersFacts.

(** ** api_server.py: index path and scan path *)

Module ApiServerFacts.
Import Py Dynamo LoadData StrOrder StrOrderFacts LoadDataFacts DynamoFacts QueryPapersFacts.
Import ApiServer.

Lemma NoDup_fmap_eq {A B} (f : A -> B) l x y :
  NoDup (f <$> l) -> x ∈ l -> y ∈ l -> f x = f y -> x = y.
Proof.
  induction l as [|a l IH]; [by intros _ ?%elem_of_nil|].
  rewrite fmap_cons. intros [Ha Hnd]%NoDup_cons.
  intros [->|Hx]%elem_of_cons [->|Hy]%elem_of_cons Hf; [done| | |by apply IH].
  - exfalso. apply Ha. rewrite Hf. by apply list_elem_of_fmap_2.
  - exfalso. apply Ha. rewrite <- Hf. by apply list_elem_of_fmap_2.
Qed.

Lemma author_entry_in_expand r a : a ∈ rec_authors r -> author_entry r a ∈ expand r.
Proof.
  intros Ha. unfold expand. rewrite !elem_of_app. right. left.
  by apply list_elem_of_fmap_2.
Qed.

(** With distinct ids, the author item of a record is still in the table
    after the load: nothing else is written under its key. *)
Lemma author_entry_stored rs r a :
  NoDup (rec_id <$> rs) -> r ∈ rs -> a ∈ rec_authors r ->
  items (loaded rs) !! primary_key (author_entry r a) = Some (author_entry r a).
Proof.
  intros Hnd Hr Ha. unfold loaded. apply batch_write_lookup_unique.
  { eapply elem_of_all_items; [done|by apply author_entry_in_expand]. }
  intros w Hw Hk.
  apply list_elem_of_join in Hw as (l & Hw & Hl).
  apply list_elem_of_fmap in Hl as (r2 & -> & Hr2).
  apply expand_cases in Hw as [(c & _ & ->)|[(a2 & _ & ->)|[(k & _ & ->)| ->]]];
    unfold primary_key in Hk; simpl in Hk; try discriminate.
  injection Hk as Hid Hsk.
  assert (r2 = r) as -> by (by eapply (NoDup_fmap_eq rec_id rs)).
  apply (append_inj_r a2 a ("#" +:+ LoadData.date_of r)) in Hsk. by subst.
Qed.

Lemma matches_author author lim it :
  matches (author_query author lim) it = true <->
  GSI1PK it = Some ("AUTHOR#" +:+ author) /\ is_Some (GSI1SK it).
Proof.
  unfold matches, author_query. simpl.
  destruct (GSI1PK it) as [pk|], (GSI1SK it) as [sk|]; simpl;
    rewrite ?andb_true_r, ?String.eqb_eq; split;
    try (intros [[= ->] ?]; done); try (intros [? [? [=]]]; done); try done.
  intros ->. eauto.
Qed.

Lemma by_author_index rs author limit :
  (1 <= limit)%Z ->
  query_papers_by_author (loaded rs) author limit =
    {| sent := [QueryCall (author_query author (Some limit))];
       outcome := Ok (select (loaded rs) (author_query author (Some limit))) |}.
Proof.
  intros Hlim. unfold query_papers_by_author, query, valid_limit, has_index. simpl.
  rewrite loaded_indexes. destruct (Z.leb_spec 1 limit); [done|lia].
Qed.

Lemma by_author_scan t author limit :
  (1 <= limit)%Z ->
  query_papers_by_author (without_indexes t) author limit =
    {| sent := [QueryCall (author_query author (Some limit)); ScanCall (AuthorsContains author)];
       outcome := Ok (List.filter (passes (AuthorsContains author)) (stored t)) |}.
Proof.
  intros Hlim. unfold query_papers_by_author, query, valid_limit, has_index. simpl.
  destruct (Z.leb_spec 1 limit); [done|lia].
Qed.

Lemma expand_authors r it : it ∈ expand r -> authors it = rec_authors r /\ arxiv_id it = rec_id r.
Proof.
  intros [(c & _ & ->)|[(a & _ & ->)|[(k & _ & ->)| ->]]]%expand_cases; done.
Qed.

(** C9 (as claimed): for an author of eleven papers and the default limit
    of 10, the index path returns ten paper ids and the scan path all
    eleven. *)
Lemma by_author_paths_differ_under_limit :
  let t := loaded Fixture.eleven_papers in
  exists by_index by_scan,
    outcome (query_papers_by_author t "A. Einstein" 10) = Ok by_index /\
    outcome (query_papers_by_author (without_indexes t) "A. Einstein" 10) = Ok by_scan /\
    size (ids_of by_index) = 10 /\
    size (ids_of by_scan) = 11 /\
    ids_of by_index <> ids_of by_scan.
Proof.
  intros t.
  assert (Hsep : forall A B : gset string, size A = 10 -> size B = 11 -> A <> B)
    by (intros A B HA HB ->; congruence).
  eexists _, _. split_and!; [by vm_compute|by vm_compute|by vm_compute|by vm_compute|].
  apply Hsep; by vm_compute.
Qed.

(** C9 (amended): for every collection of ingested records, their ids
    pairwise distinct, and every author name, the index path, when its
    limit (at least 1) is not below the number of index entries of the
    author, and the scan path, taken when the index is disabled, return the
    same set of paper ids. *)
Theorem by_author_index_scan_agree (rs : list record) (author : string) (limit : Z) :
  NoDup (rec_id <$> rs) ->
  (1 <= limit)%Z ->
  (Z.of_nat (author_entries (loaded rs) author) <= limit)%Z ->
  exists by_index by_scan,
    query_papers_by_author (loaded rs) author limit =
      {| sent := [QueryCall (author_query author (Some limit))];
         outcome := Ok by_index |} /\
    query_papers_by_author (without_indexes (loaded rs)) author limit =
      {| sent := [QueryCall (author_query author (Some limit));
                  ScanCall (AuthorsContains author)];
         outcome := Ok by_scan |} /\
    ids_of by_index = ids_of by_scan.
Proof.
  intros Hnd Hlim Hsize.
  eexists _, _. split_and!; [by apply by_author_index|by apply by_author_scan|].
  apply set_eq. intros id. unfold ids_of.
  rewrite !elem_of_list_to_set, !list_elem_of_fmap. split.
  - intros (it & -> & Hin). exists it. split; [done|].
    apply select_subset in Hin as [Hst [Hpk _]%matches_author].
    apply list_elem_of_In, filter_In. split; [by apply list_elem_of_In|].
    simpl. apply bool_decide_eq_true.
    destruct (loaded_stored _ _ Hst) as [_ (r & Hr & Hit)].
    apply expand_cases in Hit as [(c & _ & ->)|[(a & Ha & ->)|[(k & _ & ->)| ->]]];
      simpl in Hpk; try discriminate.
    injection Hpk as ->. done.
  - intros (it & -> & Hin).
    apply list_elem_of_In, filter_In in Hin as [Hst Hpass].
    apply list_elem_of_In in Hst. simpl in Hpass. apply bool_decide_eq_true in Hpass.
    destruct (loaded_stored _ _ Hst) as [_ (r & Hr & Hit)].
    destruct (expand_authors _ _ Hit) as [Hau Hid]. rewrite Hau in Hpass.
    exists (author_entry r author). split; [by rewrite Hid|].
    apply select_all; [exact Hsize| |by apply matches_author; eauto].
    apply stored_lookup. eexists. by apply author_entry_stored.
Qed.

Lemma by_author_index_scan_agree_witness :
  exists by_index by_scan,
    query_papers_by_author (loaded Fixture.papers) "A. Einstein" 10 =
      {| sent := [QueryCall (author_query "A. Einstein" (Some 10%Z))];
         outcome := Ok by_index |} /\
    query_papers_by_author (without_indexes (loaded Fixture.papers)) "A. Einstein" 10 =
      {| sent := [QueryCall (author_query "A. Einstein" (Some 10%Z));
                  ScanCall (AuthorsContains "A. Einstein")];
         outcome := Ok by_scan |} /\
    ids_of by_index = ids_of by_scan.
Proof.
  apply (by_author_index_scan_agree Fixture.papers "A. Einstein" 10).
  - apply (bool_decide_unpack _). vm_compute. exact I.
  - lia.
  - apply Z.leb_le. vm_compute. reflexivity.
Defined.

(** C7 (as claimed): with a limit of 0, the HTTP server's by-author query
    does not fail: the validation error of the index query is caught and
    the answer comes from a full scan, which reaches the service. *)
Lemma by_author_limit_zero_answers_from_scan :
  let r := {| rec_id := "2401.00001"; rec_title := "T1"; rec_authors := ["A. Einstein"];
              rec_abstract := ""; rec_categories := ["cs.AI"];
              rec_published := "2024-01-01T00:00:00Z" |} in
  sent (query_papers_by_author (loaded [r]) "A. Einstein" 0) =
    [ScanCall (AuthorsContains "A. Einstein")] /\
  exists its, outcome (query_papers_by_author (loaded [r]) "A. Einstein" 0) = Ok its /\
    ids_of its = {["2401.00001"]}.
Proof.
  intros r. split; [by vm_compute|]. eexists. split; [by vm_compute|]. by vm_compute.
Qed.

(** C7 (amended): the recent-in-category and by-keyword queries hand
    their limit to [table.query] unchecked; for a limit of 0 or below the
    call fails with the client's [ParamValidationError], and no request is
    sent to the service. *)
Theorem nonpositive_limit_fails_in_client (t : Table) (category keyword : string) (limit : Z) :
  (limit <= 0)%Z ->
  QueryPapers.query_recent_in_category t category limit =
    {| sent := []; outcome := Raise ParamValidationError |} /\
  QueryPapers.query_papers_by_keyword t keyword limit =
    {| sent := []; outcome := Raise ParamValidationError |}.
Proof.
  intros Hlim.
  unfold QueryPapers.query_recent_in_category, QueryPapers.query_papers_by_keyword,
    QueryPapers.answer, query, valid_limit. simpl.
  destruct (Z.leb_spec 1 limit); [lia|done].
Qed.

Lemma nonpositive_limit_fails_in_client_witness :
  QueryPapers.query_recent_in_category (loaded Fixture.papers) "cs.AI" 0 =
    {| sent := []; outcome := Raise ParamValidationError |} /\
  QueryPapers.query_papers_by_keyword (loaded Fixture.papers) "Attention" (-3) =
    {| sent := []; outcome := Raise ParamValidationError |}.
Proof.
  split.
  - apply (nonpositive_limit_fails_in_client (loaded Fixture.papers) "cs.AI" "x" 0). lia.
  - apply (nonpositive_limit_fails_in_client (loaded Fixture.papers) "x" "Attention" (-3)). lia.
Defined.

End ApiServerFacts.

(** ** More about keyword extraction *)

Module KeywordsMore.
Import Keywords KeywordsFacts.

Lemma counter_entry_kept tokens k c :
  (k, c) ∈ Counter (List.filter keep tokens) ->
  c = freq k tokens /\ keep k = true /\ k ∈ tokens.
Proof.
  intros Hk. apply (inv_count _ _ (Counter_inv _)) in Hk as [-> Hk].
  apply list_elem_of_In, filter_In in Hk as [Hin Hkeep].
  split_and!; [by apply freq_filter|done|by apply list_elem_of_In].
Qed.

Lemma entry_before_ranks tokens a b :
  a ∈ Counter (List.filter keep tokens) ->
  b ∈ Counter (List.filter keep tokens) ->
  entry_before (List.filter keep tokens) a b ->
  ranks_before tokens (fst a) (fst b).
Proof.
  destruct a as [ka ca], b as [kb cb]. simpl.
  intros (-> & Ha & _)%counter_entry_kept (-> & Hb & _)%counter_entry_kept.
  intros [Hlt|[Heq Hpos]]; [by left|right]. simpl in *.
  split; [done|]. by eapply first_pos_filter.
Qed.

(** X1: the keywords returned are pairwise distinct, and each of them is a
    token of the lower-cased text. *)
Theorem extract_keywords_distinct (text : string) (top_n : nat) :
  NoDup (extract_keywords text top_n) /\
  Forall (fun k => k ∈ findall_words (lower text)) (extract_keywords text top_n).
Proof.
  unfold extract_keywords, most_common. split.
  - rewrite fmap_take. eapply sublist_NoDup; [|apply sublist_take].
    rewrite sorted_desc_perm. apply (counter_inv_nodup _ _ (Counter_inv _)).
  - apply Forall_forall. intros k ([k' c] & -> & Hin)%list_elem_of_fmap.
    apply subseteq_take in Hin. rewrite sorted_desc_perm in Hin.
    by apply counter_entry_kept in Hin as (_ & _ & ?).
Qed.

(** X2: the keywords are the top ones. A token that passes the filter (not
    a stopword, longer than two characters) is either among the keywords,
    or the list is full ([top_n] keywords) and every keyword ranks before
    it: higher frequency, or equal frequency and earlier first occurrence. *)
Theorem extract_keywords_top (text : string) (top_n : nat) (w : string) :
  w ∈ findall_words (lower text) ->
  keep w = true ->
  w ∈ extract_keywords text top_n \/
  (length (extract_keywords text top_n) = top_n /\
   Forall (fun k => ranks_before (findall_words (lower text)) k w)
          (extract_keywords text top_n)).
Proof.
  intros Hw Hkeep. unfold extract_keywords, most_common.
  set (tokens := findall_words (lower text)) in *.
  set (s := sorted_desc (Counter (List.filter keep tokens))).
  assert (Hin : exists c, (w, c) ∈ s).
  { assert (Hk : w ∈ (Counter (List.filter keep tokens)).*1).
    { apply (inv_all _ _ (Counter_inv _)), list_elem_of_In, filter_In.
      split; [by apply list_elem_of_In|done]. }
    apply list_elem_of_fmap in Hk as ([w' c] & -> & Hk). exists c.
    unfold s. by rewrite sorted_desc_perm. }
  destruct Hin as [c Hc].
  assert (Hsorted : StronglySorted (entry_before (List.filter keep tokens)) s).
  { apply sorted_desc_sorted, (inv_order _ _ (Counter_inv _)). }
  rewrite <- (take_drop top_n s) in Hc, Hsorted.
  apply elem_of_app in Hc as [Hc|Hc].
  - left. by apply (list_elem_of_fmap_2 fst _ (w, c)).
  - right. split.
    + rewrite length_fmap, length_take.
      destruct (decide (length s <= top_n)) as [Hle|]; [|lia].
      rewrite drop_ge in Hc by done. by apply elem_of_nil in Hc.
    + apply Forall_fmap, Forall_forall. intros e He. simpl.
      apply (entry_before_ranks tokens e (w, c)).
      * apply subseteq_take in He. unfold s in He. by rewrite sorted_desc_perm in He.
      * apply subseteq_drop in Hc. unfold s in Hc. by rewrite sorted_desc_perm in Hc.
      * by eapply StronglySorted_app_1_elem_of.
Qed.

Lemma extract_keywords_top_witness :
  "attention" ∈ findall_words (lower "Attention is all; attention, Graph graph graph") /\
  keep "attention" = true /\
  ("attention" ∈ extract_keywords "Attention is all; attention, Graph graph graph" 1 \/
   (length (extract_keywords "Attention is all; attention, Graph graph graph" 1) = 1 /\
    Forall (fun k => ranks_before
                       (findall_words (lower "Attention is all; attention, Graph graph graph"))
                       k "attention")
           (extract_keywords "Attention is all; attention, Graph graph graph" 1))).
Proof.
  assert (H1 : "attention" ∈ findall_words
                 (lower "Attention is all; attention, Graph graph graph")).
  { vm_compute. apply elem_of_cons. left. reflexivity. }
  assert (H2 : keep "attention" = true) by (vm_compute; reflexivity).
  split; [exact H1|]. split; [exact H2|].
  exact (extract_keywords_top "Attention is all; attention, Graph graph graph" 1
           "attention" H1 H2).
Defined.

End KeywordsMore.

(** ** Missing keys, and the report of [main] *)

Module LoadReportFacts.
Import Py Dynamo LoadData LoadDataFacts LoadReport.

Lemma bind_Ok_inv {A B} (m : result A) (f : A -> result B) b :
  m ≫= f = Ok b -> exists a, m = Ok a /\ f a = Ok b.
Proof. destruct m; simpl; [eauto|done]. Qed.

Lemma raises_missing_key_bind {A B} p (m : result A) (f : A -> result B) :
  raises_missing_key p m -> (forall a, raises_missing_key p (f a)) ->
  raises_missing_key p (m ≫= f).
Proof. destruct m; simpl; auto. Qed.

Lemma raises_missing_key_subscript {A} p key (o : option A) :
  (o = None -> has_key p key = false) -> raises_missing_key p (subscript key o).
Proof. destruct o; simpl; eauto. Qed.

Lemma raises_missing_key_for_each {A B} p (f : A -> result B) l :
  (forall x, raises_missing_key p (f x)) -> raises_missing_key p (for_each f l).
Proof.
  intros Hf. induction l as [|x l IH]; simpl; [done|].
  apply (raises_missing_key_bind p (f x)); [done|]. intros y.
  apply (raises_missing_key_bind p (for_each f l)); [done|]. by intros.
Qed.

Ltac missing_key :=
  repeat (apply raises_missing_key_bind;
          [apply raises_missing_key_subscript;
           let H := fresh in intros H; unfold has_key; simpl; by rewrite H
          |intros ?]);
  try exact I.

Lemma transform_paper_raises_missing_key p : raises_missing_key p (transform_paper p).
Proof.
  unfold transform_paper.
  apply raises_missing_key_bind;
    [apply raises_missing_key_subscript; intros H; unfold has_key; simpl; by rewrite H
    |intros id].
  apply raises_missing_key_bind;
    [apply raises_missing_key_subscript; intros H; unfold has_key; simpl; by rewrite H
    |intros pub].
  apply raises_missing_key_bind.
  { apply raises_missing_key_for_each. intros c. unfold category_item. missing_key. }
  intros cs. apply raises_missing_key_bind.
  { apply raises_missing_key_for_each. intros a. unfold author_item. missing_key. }
  intros au. apply raises_missing_key_bind.
  { apply raises_missing_key_for_each. intros k. unfold keyword_item. missing_key. }
  intros ks. apply raises_missing_key_bind; [unfold paper_id_item; missing_key|].
  by intros.
Qed.

Lemma complete_to_paper r : complete (to_paper r) = true.
Proof. reflexivity. Qed.

Lemma complete_record p : complete p = true -> exists r, p = to_paper r.
Proof.
  destruct p as [[id|] [ti|] [au|] [ab|] [ca|] [pu|]]; try discriminate.
  intros _. by exists {| rec_id := id; rec_title := ti; rec_authors := au;
                         rec_abstract := ab; rec_categories := ca; rec_published := pu |}.
Qed.

Lemma transform_paper_Ok_complete p its : transform_paper p = Ok its -> complete p = true.
Proof.
  unfold transform_paper. intros H.
  apply bind_Ok_inv in H as (id & Hid & H).
  apply bind_Ok_inv in H as (pu & Hpu & H).
  apply bind_Ok_inv in H as (cs & _ & H).
  apply bind_Ok_inv in H as (au & _ & H).
  apply bind_Ok_inv in H as (ks & _ & H).
  apply bind_Ok_inv in H as (it & H & _).
  unfold paper_id_item in H.
  destruct p as [[?|] [?|] [?|] [?|] [?|] [?|]]; simpl in *; try discriminate.
  reflexivity.
Qed.

(** X3: [transform_paper] returns items exactly for the papers that carry
    all six keys, and then the items of the record. For any other paper it
    raises [KeyError] for a key that the paper lacks, also when the key is
    [abstract], [categories] or [authors], which are first read with a
    default. *)
Theorem transform_paper_needs_every_key (p : paper) :
  match transform_paper p with
  | Ok its => complete p = true /\ exists r, p = to_paper r /\ its = expand r
  | Raise e => complete p = false /\ exists key, e = KeyError key /\ has_key p key = false
  end.
Proof.
  pose proof (transform_paper_raises_missing_key p) as Hraise.
  destruct (transform_paper p) as [its|e] eqn:E.
  - pose proof (transform_paper_Ok_complete _ _ E) as Hc. split; [done|].
    destruct (complete_record _ Hc) as [r ->]. exists r. split; [done|].
    rewrite transform_paper_record in E. congruence.
  - split; [|exact Hraise].
    destruct (complete p) eqn:Hc; [|done].
    destruct (complete_record _ Hc) as [r ->].
    rewrite transform_paper_record in E. discriminate.
Qed.

Example transform_paper_without_abstract :
  transform_paper
    {| p_arxiv_id := Some "2401.00001"; p_title := Some "T"; p_authors := Some [];
       p_abstract := None; p_categories := Some []; p_published := Some "2024-01-01" |}
  = Raise (KeyError "abstract").
Proof. reflexivity. Qed.

(** *** The whole load *)

Lemma for_each_Ok_all {A B} (f : A -> result B) l ys :
  for_each f l = Ok ys -> forall x, x ∈ l -> exists y, f x = Ok y.
Proof.
  revert ys. induction l as [|a l IH]; intros ys H x Hx; [by apply elem_of_nil in Hx|].
  simpl in H. apply bind_Ok_inv in H as (y & Hy & H).
  apply bind_Ok_inv in H as (ys' & Hys & _).
  apply elem_of_cons in Hx as [->|Hx]; eauto.
Qed.


(** X4: the load is all or nothing. When one paper of the file lacks a
    key, [main] ends with that [KeyError] before any item is written: the
    table that it has just created is left empty, whatever the other
    papers are. *)
Theorem run_main_aborts_on_incomplete_paper (papers : list paper) (p : paper) :
  p ∈ papers -> complete p = false ->
  exists key,
    run_main papers =
      {| table_left := create_table; finished := Failed (Uncaught (KeyError key)) |}.
Proof.
  intros Hp Hc. unfold run_main.
  destruct (for_each transform_paper papers) as [ys|e] eqn:E.
  - exfalso. destruct (for_each_Ok_all _ _ _ E p Hp) as [its Hits].
    apply transform_paper_Ok_complete in Hits. congruence.
  - assert (Hk : only_key_error (for_each transform_paper papers)).
    { apply only_key_error_for_each, transform_paper_only_key_error. }
    rewrite E in Hk. destruct Hk as [key ->]. by exists key.
Qed.

Lemma run_main_aborts_on_incomplete_paper_witness :
  exists key,
    run_main
      [to_paper Fixture.paper_a;
       {| p_arxiv_id := Some "2401.00009"; p_title := None; p_authors := Some ["X"];
          p_abstract := Some ""; p_categories := Some ["cs.AI"];
          p_published := Some "2024-01-09" |}] =
      {| table_left := create_table; finished := Failed (Uncaught (KeyError key)) |}.
Proof.
  eapply (run_main_aborts_on_incomplete_paper _
    {| p_arxiv_id := Some "2401.00009"; p_title := None; p_authors := Some ["X"];
       p_abstract := Some ""; p_categories := Some ["cs.AI"];
       p_published := Some "2024-01-09" |}).
  - apply elem_of_cons. right. apply elem_of_cons. left. reflexivity.
  - reflexivity.
Defined.






End LoadReportFacts.

(** ** Writes in any order *)

Module BatchWriteFacts.
Import Py Dynamo LoadData LoadDataFacts.

Lemma last_put_unique k its v :
  NoDup (primary_key <$> its) -> v ∈ its -> primary_key v = k ->
  last_put k its = Some v.
Proof.
  intros Hnd Hv Hk. destruct (last_put k its) as [w|] eqn:E.
  - apply last_put_Some in E as [Hw Hkw]. f_equal.
    eapply (ApiServerFacts.NoDup_fmap_eq primary_key its); [done..|congruence].
  - by destruct (last_put_None _ _ E v Hv).
Qed.

(** X6: items with pairwise distinct primary keys can be written in any
    order: two batches that are permutations of each other leave the same
    table. *)
Theorem batch_write_order_irrelevant (t : Table) (its1 its2 : list Item) :
  its1 ≡ₚ its2 -> NoDup (primary_key <$> its1) ->
  batch_write t its1 = batch_write t its2.
Proof.
  intros Hperm Hnd1.
  assert (Hnd2 : NoDup (primary_key <$> its2)) by (by rewrite <- Hperm).
  apply Table_eq; [|by rewrite !batch_write_indexes].
  apply map_eq. intros k. rewrite !batch_write_lookup.
  destruct (last_put k its1) as [v|] eqn:E1.
  - apply last_put_Some in E1 as [Hv Hk]. rewrite Hperm in Hv.
    by rewrite (last_put_unique k its2 v).
  - destruct (last_put k its2) as [w|] eqn:E2; [|done].
    apply last_put_Some in E2 as [Hw Hk]. rewrite <- Hperm in Hw.
    by destruct (last_put_None _ _ E1 w Hw).
Qed.

Lemma batch_write_order_irrelevant_witness :
  reverse (expand Fixture.paper_a) ≡ₚ expand Fixture.paper_a /\
  NoDup (primary_key <$> reverse (expand Fixture.paper_a)) /\
  batch_write create_table (reverse (expand Fixture.paper_a)) =
    batch_write create_table (expand Fixture.paper_a).
Proof.
  assert (H1 : reverse (expand Fixture.paper_a) ≡ₚ expand Fixture.paper_a)
    by apply reverse_Permutation.
  assert (H2 : NoDup (primary_key <$> reverse (expand Fixture.paper_a))).
  { apply (bool_decide_unpack _). vm_compute. exact I. }
  split; [exact H1|]. split; [exact H2|].
  exact (batch_write_order_irrelevant create_table _ _ H1 H2).
Defined.

End BatchWriteFacts.

(** ** What the access patterns return *)

Module QueryMoreFacts.
Import Py Dynamo LoadData StrOrder StrOrderFacts LoadDataFacts DynamoFacts.
Import QueryPapers QueryPapersFacts QueryVocabulary.

Lemma project_expand r it : it ∈ expand r -> project it = summary r.
Proof.
  intros [(c & _ & ->)|[(a & _ & ->)|[(k & _ & ->)| ->]]]%expand_cases; done.
Qed.

Lemma select_from_records rs req it :
  it ∈ select (loaded rs) req -> exists r, r ∈ rs /\ it ∈ expand r.
Proof.
  intros [Hst _]%select_subset. by apply loaded_stored in Hst as [_ ?].
Qed.

Lemma answers_from_listing rs req :
  answers_from rs (answer listing (query (loaded rs) req)).
Proof.
  unfold answers_from, answer, query.
  destruct (negb (valid_limit (Limit req))); [done|].
  destruct (negb (has_index (loaded rs) (IndexName req) && valid_range (range_between req)));
    [done|].
  simpl. split; [done|].
  apply Forall_fmap, Forall_forall. intros it (r & Hr & Hit)%select_from_records.
  exists r. split; [done|]. by apply project_expand.
Qed.

(** X7: no access pattern of query_papers.py shows anything that was not
    loaded. On a loaded table, every result of the five queries is the
    summary (id, title, authors, published, categories) of one of the
    loaded records, whichever kind of item it was read from, and [count] is
    the number of results. *)
Theorem queries_answer_from_records
    (rs : list record) (category author id keyword d1 d2 : string) (limit : Z) :
  answers_from rs (query_recent_in_category (loaded rs) category limit) /\
  answers_from rs (query_papers_by_author (loaded rs) author) /\
  answers_from rs (get_paper_by_id (loaded rs) id) /\
  answers_from rs (query_papers_in_date_range (loaded rs) category d1 d2) /\
  answers_from rs (query_papers_by_keyword (loaded rs) keyword limit).
Proof.
  split_and!; try apply answers_from_listing.
  unfold answers_from. rewrite get_paper_by_id_outcome.
  destruct (select (loaded rs) (paper_id_query id)) as [|it l] eqn:E; simpl.
  - split; [done|constructor].
  - split; [done|]. repeat constructor.
    destruct (select_from_records rs (paper_id_query id) it) as (r & Hr & Hit).
    { rewrite E. by left. }
    exists r. split; [done|]. by apply project_expand.
Qed.

(** *** Sort keys *)

Lemma sort_key_inj d1 : forall d2 id1 id2,
  String.length d1 = String.length d2 ->
  d1 +:+ "#" +:+ id1 = d2 +:+ "#" +:+ id2 -> d1 = d2 /\ id1 = id2.
Proof.
  induction d1 as [|c d1 IH]; intros [|c2 d2] id1 id2 Hlen H; simpl in *; try done.
  - by injection H as ->.
  - injection H as -> H. destruct (IH d2 id1 id2) as [-> ->]; [lia|done|done].
Qed.

Lemma older_first_sort_keys ra rb x y :
  dated ra -> dated rb ->
  le (LoadData.date_of ra +:+ "#" +:+ rec_id ra) (LoadData.date_of rb +:+ "#" +:+ rec_id rb) ->
  project x = summary ra -> project y = summary rb ->
  older_first (project x) (project y).
Proof.
  intros Ha Hb Hle -> ->.
  apply sort_key_le in Hle; [|by rewrite !dated_length].
  unfold older_first. destruct Hle as [?|[? ?]]; [by left|by right].
Qed.

(** *** By category *)

Lemma category_entry_in_expand r c : c ∈ rec_categories r -> category_entry r c ∈ expand r.
Proof.
  intros Hc. unfold expand. rewrite !elem_of_app. left. by apply list_elem_of_fmap_2.
Qed.

Lemma category_entry_stored rs r c :
  NoDup (rec_id <$> rs) -> Forall dated rs -> r ∈ rs -> c ∈ rec_categories r ->
  items (loaded rs) !! primary_key (category_entry r c) = Some (category_entry r c).
Proof.
  intros Hnd Hdated Hr Hc. unfold loaded. apply batch_write_lookup_unique.
  { eapply elem_of_all_items; [done|by apply category_entry_in_expand]. }
  intros w Hw Hk.
  apply list_elem_of_join in Hw as (l & Hw & Hl).
  apply list_elem_of_fmap in Hl as (r2 & -> & Hr2).
  apply expand_cases in Hw as [(c2 & _ & ->)|[(a2 & _ & ->)|[(k & _ & ->)| ->]]];
    unfold primary_key in Hk; simpl in Hk; try discriminate.
  injection Hk as Hcat Hsk.
  apply sort_key_inj in Hsk as [_ Hid].
  2:{ rewrite !dated_length; [done|by eapply Forall_forall in Hdated..]. }
  assert (r2 = r) as -> by (by eapply (ApiServerFacts.NoDup_fmap_eq rec_id rs)).
  by rewrite Hcat.
Qed.

(** X8: recent-in-category is complete. On a table loaded from dated
    records with pairwise distinct ids, with a limit that is not below the
    size of the category's partition, the results are exactly the
    summaries of the records that list the category. *)
Theorem recent_in_category_lists_the_category
    (rs : list record) (category : string) (limit : Z) :
  NoDup (rec_id <$> rs) -> Forall dated rs ->
  (1 <= limit)%Z -> (Z.of_nat (category_size (loaded rs) category) <= limit)%Z ->
  exists res,
    outcome (query_recent_in_category (loaded rs) category limit) = Ok res /\
    forall p, p ∈ results res <->
              exists r, r ∈ rs /\ category ∈ rec_categories r /\ p = summary r.
Proof.
  intros Hnd Hdated Hlim Hsize. rewrite recent_outcome.
  destruct (Z.leb_spec 1 limit) as [_|?]; [|lia].
  eexists. split; [done|]. intros p. simpl. rewrite list_elem_of_fmap. split.
  - intros (it & -> & [Hst [Hpk _]%matches_table]%select_subset).
    destruct (category_partition _ _ _ Hst Hpk) as (r & Hr & Hc & ->).
    exists r. done.
  - intros (r & Hr & Hc & ->). exists (category_entry r category). split; [done|].
    apply select_all; [exact Hsize| |by apply matches_table].
    apply stored_lookup. eexists. by apply category_entry_stored.
Qed.

Lemma recent_in_category_lists_the_category_witness :
  exists res,
    outcome (query_recent_in_category (loaded Fixture.papers) "cs.CL" 5) = Ok res /\
    forall p, p ∈ results res <->
              exists r, r ∈ Fixture.papers /\ "cs.CL" ∈ rec_categories r /\ p = summary r.
Proof.
  apply (recent_in_category_lists_the_category Fixture.papers "cs.CL" 5).
  - apply (bool_decide_unpack _). vm_compute. exact I.
  - repeat apply Forall_cons_2; [unfold dated; simpl; lia..|apply Forall_nil_2].
  - lia.
  - apply Z.leb_le. vm_compute. reflexivity.
Defined.

(** X9: the date-range query returns nothing outside the range, oldest
    first. On a table loaded from dated records, for ten-character dates,
    every result has its date in [[d1, d2]] and the results are in
    ascending order of date, then id; when the query fails, [d1] is after
    [d2]. *)
Theorem date_range_within_bounds (rs : list record) (category d1 d2 : string) :
  Forall dated rs -> String.length d1 = 10 -> String.length d2 = 10 ->
  match outcome (query_papers_in_date_range (loaded rs) category d1 d2) with
  | Ok res =>
      Forall (in_date_range d1 d2) (results res) /\
      StronglySorted older_first (results res)
  | Raise _ => lt d2 d1
  end.
Proof.
  intros Hdated Hd1 Hd2. rewrite range_outcome.
  assert (Hlen12 : String.length d1 = String.length d2) by congruence.
  pose proof (range_bounds_le d1 d2 Hlen12) as Hrb.
  destruct (String.leb (d1 +:+ "#") (d2 +:+ "#zzzzzzzz")) eqn:Hvalid.
  2:{ apply not_le_lt. intros Hle. apply Hrb in Hle. congruence. }
  set (req := {| IndexName := None; hash_eq := "CATEGORY#" +:+ category;
                 range_between := Some (d1 +:+ "#", d2 +:+ "#zzzzzzzz");
                 ScanIndexForward := true; Limit := None |}).
  assert (Hshape : forall it, it ∈ select (loaded rs) req ->
            exists r, dated r /\ it = category_entry r category /\
              le (d1 +:+ "#") (SK it) /\ le (SK it) (d2 +:+ "#zzzzzzzz")).
  { intros it [Hst [Hpk Hb]%matches_table]%select_subset.
    destruct (category_partition _ _ _ Hst Hpk) as (r & Hr & _ & ->).
    exists r. split; [by eapply Forall_forall in Hdated|]. split; [done|].
    simpl in Hb. by apply andb_true_iff in Hb. }
  simpl. split.
  - apply Forall_fmap, Forall_forall.
    intros it (r & Hr & -> & Hlo & Hhi)%Hshape.
    pose proof (dated_length r Hr) as Hlen.
    unfold in_date_range.
    change (date_of (project (category_entry r category))) with (LoadData.date_of r).
    change (SK (category_entry r category))
      with (LoadData.date_of r +:+ "#" +:+ rec_id r) in Hlo, Hhi.
    split.
    + apply lower_bound_le in Hlo; [done|congruence].
    + change (d2 +:+ "#zzzzzzzz") with (d2 +:+ "#" +:+ "zzzzzzzz") in Hhi.
      apply sort_key_le in Hhi; [|congruence].
      apply le_lt_or_eq. destruct Hhi as [?|[? _]]; auto.
  - pose proof (select_sorted (loaded rs) req) as Hsorted. simpl in Hsorted.
    eapply KeywordsFacts.StronglySorted_fmap_in; [exact Hsorted|].
    intros a b (ra & Hra & -> & _)%Hshape (rb & Hrb' & -> & _)%Hshape Hab.
    unfold sort_le, sort_key in Hab. simpl in Hab.
    by eapply (older_first_sort_keys ra rb).
Qed.

Lemma date_range_within_bounds_witness :
  match outcome (query_papers_in_date_range (loaded Fixture.papers) "cs.AI"
                   "2024-01-01" "2024-01-01") with
  | Ok res =>
      Forall (in_date_range "2024-01-01" "2024-01-01") (results res) /\
      StronglySorted older_first (results res)
  | Raise _ => lt "2024-01-01" "2024-01-01"
  end.
Proof.
  apply (date_range_within_bounds Fixture.papers "cs.AI" "2024-01-01" "2024-01-01").
  - repeat apply Forall_cons_2; [unfold dated; simpl; lia..|apply Forall_nil_2].
  - reflexivity.
  - reflexivity.
Defined.

End QueryMoreFacts.

(** ** By author, by keyword, by id *)

Module LookupFacts.
Import Py Dynamo LoadData StrOrder StrOrderFacts LoadDataFacts DynamoFacts.
Import QueryPapers QueryPapersFacts QueryVocabulary QueryMoreFacts.
Import ApiServer ApiServerFacts ApiServerMore.

Lemma by_author_response t author :
  has_index t (Some AuthorIndex) = true ->
  QueryPapers.query_papers_by_author t author =
    {| sent := [QueryCall (author_query author None)];
       outcome := Ok (listing (select t (author_query author None))) |}.
Proof.
  intros Hix. unfold QueryPapers.query_papers_by_author, answer, query.
  change (IndexName _) with (Some AuthorIndex). simpl in *. by rewrite Hix.
Qed.

Lemma loaded_has_index rs ix : has_index (loaded rs) (Some ix) = true.
Proof.
  unfold has_index. rewrite loaded_indexes. apply bool_decide_eq_true.
  destruct ix; set_solver.
Qed.

(** X10: the by-author query of query_papers.py is complete and ordered.
    On a table loaded from dated records with pairwise distinct ids, its
    results are exactly the summaries of the records that name the author,
    oldest first; the query sends one request, without a limit. *)
Theorem by_author_lists_the_authors_papers (rs : list record) (author : string) :
  NoDup (rec_id <$> rs) -> Forall dated rs ->
  exists res,
    QueryPapers.query_papers_by_author (loaded rs) author =
      {| sent := [QueryCall (author_query author None)]; outcome := Ok res |} /\
    (forall p, p ∈ results res <->
               exists r, r ∈ rs /\ author ∈ rec_authors r /\ p = summary r) /\
    StronglySorted older_first (results res).
Proof.
  intros Hnd Hdated. rewrite by_author_response by apply loaded_has_index.
  eexists. split; [done|].
  assert (Hshape : forall it, it ∈ select (loaded rs) (author_query author None) ->
            exists r, r ∈ rs /\ author ∈ rec_authors r /\ it = author_entry r author).
  { intros it [Hst [Hpk _]%matches_author]%select_subset.
    destruct (loaded_stored _ _ Hst) as [_ (r & Hr & Hit)].
    apply expand_cases in Hit as [(c & _ & ->)|[(a & Ha & ->)|[(k & _ & ->)| ->]]];
      simpl in Hpk; try discriminate.
    injection Hpk as ->. eauto. }
  simpl. split.
  - intros p. rewrite list_elem_of_fmap. split.
    + intros (it & -> & (r & Hr & Ha & ->)%Hshape). exists r. done.
    + intros (r & Hr & Ha & ->). exists (author_entry r author). split; [done|].
      apply select_all; [done| |apply matches_author; simpl; eauto].
      apply stored_lookup. eexists. by apply author_entry_stored.
  - pose proof (select_sorted (loaded rs) (author_query author None)) as Hsorted.
    simpl in Hsorted.
    eapply KeywordsFacts.StronglySorted_fmap_in; [exact Hsorted|].
    intros a b (ra & Hra & _ & ->)%Hshape (rb & Hrb & _ & ->)%Hshape Hab.
    unfold sort_le, sort_key in Hab. simpl in Hab.
    eapply (older_first_sort_keys ra rb); [| |exact Hab|done|done];
      by eapply Forall_forall in Hdated.
Qed.

Lemma by_author_lists_the_authors_papers_witness :
  exists res,
    QueryPapers.query_papers_by_author (loaded Fixture.papers) "N. Bohr" =
      {| sent := [QueryCall (author_query "N. Bohr" None)]; outcome := Ok res |} /\
    (forall p, p ∈ results res <->
               exists r, r ∈ Fixture.papers /\ "N. Bohr" ∈ rec_authors r /\ p = summary r) /\
    StronglySorted older_first (results res).
Proof.
  apply (by_author_lists_the_authors_papers Fixture.papers "N. Bohr").
  - apply (bool_decide_unpack _). vm_compute. exact I.
  - repeat apply Forall_cons_2; [unfold dated; simpl; lia..|apply Forall_nil_2].
Defined.

(** *** By keyword *)

Lemma keyword_entry_in_expand r k : k ∈ keywords_of r -> keyword_entry r k ∈ expand r.
Proof.
  intros Hk. unfold expand. rewrite !elem_of_app. right. right. left.
  by apply list_elem_of_fmap_2.
Qed.

Lemma keyword_entry_stored rs r k :
  NoDup (rec_id <$> rs) -> r ∈ rs -> k ∈ keywords_of r ->
  items (loaded rs) !! primary_key (keyword_entry r k) = Some (keyword_entry r k).
Proof.
  intros Hnd Hr Hk. unfold loaded. apply batch_write_lookup_unique.
  { eapply elem_of_all_items; [done|by apply keyword_entry_in_expand]. }
  intros w Hw Hkey.
  apply list_elem_of_join in Hw as (l & Hw & Hl).
  apply list_elem_of_fmap in Hl as (r2 & -> & Hr2).
  apply expand_cases in Hw as [(c & _ & ->)|[(a2 & _ & ->)|[(k2 & _ & ->)| ->]]];
    unfold primary_key in Hkey; simpl in Hkey; try discriminate.
  injection Hkey as Hid Hsk.
  assert (r2 = r) as -> by (by eapply (NoDup_fmap_eq rec_id rs)).
  apply (append_inj_r k2 k ("#" +:+ LoadData.date_of r)) in Hsk. by subst.
Qed.

Lemma matches_keyword keyword lim it :
  matches (keyword_query keyword lim) it = true <->
  GSI3PK it = Some ("KEYWORD#" +:+ Keywords.lower keyword) /\ is_Some (GSI3SK it).
Proof.
  unfold matches, keyword_query. simpl.
  destruct (GSI3PK it) as [pk|], (GSI3SK it) as [sk|]; simpl;
    rewrite ?andb_true_r, ?String.eqb_eq; split;
    try (intros [[= ->] ?]; done); try (intros [? [? [=]]]; done); try done.
  intros ->. eauto.
Qed.

Lemma by_keyword_response rs keyword limit :
  (1 <= limit)%Z ->
  query_papers_by_keyword (loaded rs) keyword limit =
    {| sent := [QueryCall (keyword_query keyword (Some limit))];
       outcome := Ok (listing (select (loaded rs) (keyword_query keyword (Some limit)))) |}.
Proof.
  intros Hlim. unfold query_papers_by_keyword, answer, query, valid_limit, has_index. simpl.
  rewrite loaded_indexes. destruct (Z.leb_spec 1 limit); [done|lia].
Qed.

(** X11: a paper is found again through each of its keywords, whatever the
    case of the query. On a table loaded from records with pairwise
    distinct ids, with a limit that is not below the number of index
    entries of the keyword, the results of the by-keyword query are exactly
    the summaries of the records whose extracted keywords contain the
    lower-cased query word. *)
Theorem by_keyword_finds_the_papers (rs : list record) (keyword : string) (limit : Z) :
  NoDup (rec_id <$> rs) ->
  (1 <= limit)%Z ->
  (Z.of_nat (keyword_entries (loaded rs) keyword) <= limit)%Z ->
  exists res,
    outcome (query_papers_by_keyword (loaded rs) keyword limit) = Ok res /\
    forall p, p ∈ results res <->
              exists r, r ∈ rs /\ Keywords.lower keyword ∈ keywords_of r /\ p = summary r.
Proof.
  intros Hnd Hlim Hsize. rewrite by_keyword_response by done.
  eexists. split; [done|]. intros p. simpl. rewrite list_elem_of_fmap. split.
  - intros (it & -> & [Hst [Hpk _]%matches_keyword]%select_subset).
    destruct (loaded_stored _ _ Hst) as [_ (r & Hr & Hit)].
    apply expand_cases in Hit as [(c & _ & ->)|[(a & _ & ->)|[(k & Hk & ->)| ->]]];
      simpl in Hpk; try discriminate.
    injection Hpk as ->. exists r. done.
  - intros (r & Hr & Hk & ->). exists (keyword_entry r (Keywords.lower keyword)).
    split; [done|].
    apply select_all; [exact Hsize| |apply matches_keyword; simpl; eauto].
    apply stored_lookup. eexists. by apply keyword_entry_stored.
Qed.

Lemma by_keyword_finds_the_papers_witness :
  exists res,
    outcome (query_papers_by_keyword (loaded Fixture.papers) "TRANSFORMERS" 20) = Ok res /\
    forall p, p ∈ results res <->
              exists r, r ∈ Fixture.papers /\
                        Keywords.lower "TRANSFORMERS" ∈ keywords_of r /\ p = summary r.
Proof.
  apply (by_keyword_finds_the_papers Fixture.papers "TRANSFORMERS" 20).
  - apply (bool_decide_unpack _). vm_compute. exact I.
  - lia.
  - apply Z.leb_le. vm_compute. reflexivity.
Defined.

Example by_keyword_any_case :
  exists res,
    outcome (query_papers_by_keyword (loaded Fixture.papers) "TransFormers" 20) = Ok res /\
    r_arxiv_id <$> results res = ["2401.00001"].
Proof. eexists. split; by vm_compute. Qed.

End LookupFacts.

(** ** The two lookups by id, and the limit *)

Module ByIdFacts.
Import Py Dynamo LoadData StrOrder StrOrderFacts LoadDataFacts DynamoFacts.
Import QueryPapers QueryPapersFacts QueryVocabulary QueryMoreFacts ApiServerMore.

Lemma expand_PK r it :
  it ∈ expand r ->
  PK it = "ARXIV#" +:+ rec_id r \/ exists c, it = category_entry r c.
Proof.
  intros [(c & _ & ->)|[(a & _ & ->)|[(k & _ & ->)| ->]]]%expand_cases; eauto.
Qed.

(** The paper-id index partition of an id starts with the canonical item. *)
Lemma paper_id_partition_head rs id r' :
  rec_id r' = id ->
  items (loaded rs) !! ("ARXIV#" +:+ id, "ARXIV#" +:+ id) = Some (id_entry r') ->
  head (select (loaded rs) (paper_id_query id)) = Some (id_entry r').
Proof.
  intros Hid Hstored.
  apply (sorted_head (sort_le (Some PaperIdIndex))).
  - apply (select_sorted (loaded rs) (paper_id_query id)).
  - apply select_all; [done| |].
    + apply stored_lookup. eauto.
    + apply matches_paper_id. simpl. rewrite Hid. eauto.
  - intros other [Hst [Hpk _]%matches_paper_id]%select_subset.
    apply loaded_stored in Hst as [Hlook (r2 & Hr2 & Hin)].
    apply expand_cases in Hin as [(c & _ & ->)|[(a & _ & ->)|[(k & _ & ->)| ->]]];
      simpl in Hpk; try discriminate.
    + right. unfold sort_le. apply lt_not_le. reflexivity.
    + left. injection Hpk as Hid2.
      unfold primary_key in Hlook. simpl in Hlook. rewrite Hid2 in Hlook.
      simpl in Hstored. rewrite Hstored in Hlook. congruence.
Qed.

Lemma unknown_id_nothing_stored rs id it :
  id ∉ rec_id <$> rs -> it ∈ stored (loaded rs) ->
  PK it <> "ARXIV#" +:+ id /\ GSI2PK it <> Some ("ARXIV#" +:+ id).
Proof.
  intros Hid Hst. apply loaded_stored in Hst as [_ (r & Hr & Hit)].
  assert (rec_id r <> id).
  { intros <-. apply Hid. by apply list_elem_of_fmap_2. }
  apply expand_cases in Hit as [(c & _ & ->)|[(a & _ & ->)|[(k & _ & ->)| ->]]];
    simpl; split; try done; intros [= ?]; done.
Qed.

(** X12: the two lookups by id agree. On a loaded table,
    [query_paper_by_id] of api_server.py (a [get_item] on the table key)
    finds an item exactly when a loaded record has the id; the item is then
    the canonical item of such a record, and [get_paper_by_id] of
    query_papers.py (a query on the paper-id index) returns its projection
    as the one result. For an id that was not loaded the first returns no
    item and the second no result. *)
Theorem by_id_lookups_agree (rs : list record) (id : string) :
  match query_paper_by_id (loaded rs) id with
  | Some it =>
      (exists r, r ∈ rs /\ rec_id r = id /\ it = id_entry r) /\
      outcome (get_paper_by_id (loaded rs) id) = Ok {| results := [project it]; count := 1 |}
  | None =>
      (id ∉ rec_id <$> rs) /\
      outcome (get_paper_by_id (loaded rs) id) = Ok {| results := []; count := 0 |}
  end.
Proof.
  unfold query_paper_by_id, get_item. rewrite get_paper_by_id_outcome.
  destruct (decide (id ∈ rec_id <$> rs)) as [Hin|Hout].
  - apply list_elem_of_fmap in Hin as (r & -> & Hr).
    destruct (canonical_stored rs r Hr) as (r' & Hr' & Hid & Hstored).
    rewrite Hstored. split; [eauto|].
    pose proof (paper_id_partition_head rs (rec_id r) r' Hid Hstored) as Hhead.
    destruct (select (loaded rs) (paper_id_query (rec_id r))) as [|i l]; [done|].
    simpl in Hhead. by injection Hhead as ->.
  - destruct (items (loaded rs) !! ("ARXIV#" +:+ id, "ARXIV#" +:+ id)) as [it|] eqn:E.
    + exfalso. assert (Hst : it ∈ stored (loaded rs)) by (apply stored_lookup; eauto).
      destruct (unknown_id_nothing_stored rs id it Hout Hst) as [Hpk _].
      apply loaded_lookup in E as [E _]. unfold primary_key in E. congruence.
    + split; [done|].
      destruct (select (loaded rs) (paper_id_query id)) as [|i l] eqn:Es; [done|].
      exfalso. assert (Hi : i ∈ select (loaded rs) (paper_id_query id)).
      { rewrite Es. by left. }
      apply select_subset in Hi as [Hst [Hpk _]%matches_paper_id].
      by destruct (unknown_id_nothing_stored rs id i Hout Hst) as [_ ?].
Qed.

(** X13: the limit of recent-in-category cuts a prefix. On any table, for
    limits [1 <= n <= m], the results for [n] are the first [n] results for
    [m], there are at most [n] of them, and [query_recent_papers] of
    api_server.py returns the items that these results are projected
    from. *)
Theorem recent_limit_cuts_a_prefix (t : Table) (category : string) (n m : Z) :
  (1 <= n)%Z -> (n <= m)%Z ->
  exists a b its,
    outcome (query_recent_in_category t category n) = Ok a /\
    outcome (query_recent_in_category t category m) = Ok b /\
    outcome (query_recent_papers t category n) = Ok its /\
    results a = take (Z.to_nat n) (results b) /\
    results a = project <$> its /\
    count a <= Z.to_nat n.
Proof.
  intros Hn Hm. rewrite !recent_outcome.
  unfold query_recent_papers, query, valid_limit. simpl.
  destruct (Z.leb_spec 1 n) as [_|?]; [|lia].
  destruct (Z.leb_spec 1 m) as [_|?]; [|lia].
  simpl. eexists _, _, _. split_and!; [done|done|done| |done|].
  - unfold select. simpl. rewrite <- fmap_take, take_take. do 2 f_equal. lia.
  - simpl. rewrite length_fmap. unfold select. simpl. rewrite length_take. lia.
Qed.

Lemma recent_limit_cuts_a_prefix_witness :
  exists a b its,
    outcome (query_recent_in_category (loaded Fixture.papers) "cs.AI" 1) = Ok a /\
    outcome (query_recent_in_category (loaded Fixture.papers) "cs.AI" 2) = Ok b /\
    outcome (query_recent_papers (loaded Fixture.papers) "cs.AI" 1) = Ok its /\
    results a = take (Z.to_nat 1) (results b) /\
    results a = project <$> its /\
    count a <= Z.to_nat 1.
Proof.
  apply (recent_limit_cuts_a_prefix (loaded Fixture.papers) "cs.AI" 1 2); lia.
Defined.

End ByIdFacts.

(** ** Keyword search and the request handler of api_server.py *)

Module HttpServerFacts.
Import Py Dynamo LoadData StrOrder StrOrderFacts LoadDataFacts DynamoFacts.
Import QueryPapers QueryPapersFacts QueryVocabulary QueryMoreFacts.
Import ApiServer ApiServerFacts ApiServerMore LookupFacts ByIdFacts HttpServer.

(** *** Substrings *)

Lemma prefix_split p : forall s, String.prefix p s = true <-> exists b, s = p +:+ b.
Proof.
  induction p as [|c p IH]; intros s.
  - split; [intros _; by exists s|by destruct s].
  - destruct s as [|d s]; simpl; [split; [done|by intros [b ?]]|].
    destruct (ascii_dec c d) as [->|Hne].
    + rewrite IH. split; intros [b Hb]; exists b; [by rewrite Hb|by injection Hb].
    + split; [done|]. intros [b Hb]. injection Hb as ? _. congruence.
Qed.

Lemma is_substring_split needle : forall haystack,
  is_substring needle haystack = true <->
  exists a b, haystack = a +:+ needle +:+ b.
Proof.
  induction haystack as [|c h IH]; cbn [is_substring].
  - rewrite orb_false_r, prefix_split. split.
    + intros [b Hb]. by exists "", b.
    + intros (a & b & H). destruct a; [by exists b|done].
  - rewrite orb_true_iff, prefix_split, IH. split.
    + intros [[b Hb]|(a & b & ->)]; [by exists "", b|by exists (String c a), b].
    + intros (a & b & H). destruct a as [|d a]; [left; by exists b|right].
      injection H as -> ->. by exists a, b.
Qed.

(** *** Keyword search *)

Lemma search_without_index t keyword limit :
  has_index t (Some KeywordIndex) = false ->
  search_papers_by_keyword t keyword limit = scan_title t keyword limit.
Proof.
  intros Hix. unfold search_papers_by_keyword, query, valid_limit, search_query.
  cbn [Limit IndexName range_between]. rewrite Hix.
  by destruct (negb (1 <=? limit)%Z).
Qed.

(** X14: keyword search without its index. When the table has no keyword
    index, [search_papers_by_keyword] answers from the scan: for a limit of
    at least 1 it returns at most [limit] stored items, each with a title
    that contains the keyword as it was typed; for a limit below 1 the
    scan is refused as the query was, and [ParamValidationError] is
    raised. *)
Theorem search_fallback_scans_titles (t : Table) (keyword : string) (limit : Z) :
  has_index t (Some KeywordIndex) = false ->
  match search_papers_by_keyword t keyword limit with
  | Ok its =>
      (1 <= limit)%Z /\
      length its <= Z.to_nat limit /\
      Forall (fun it => it ∈ stored t /\ exists a b, title it = a +:+ keyword +:+ b) its
  | Raise e => (limit < 1)%Z /\ e = ParamValidationError
  end.
Proof.
  intros Hix. rewrite search_without_index by done. unfold scan_title.
  destruct (Z.leb_spec 1 limit) as [Hlim|Hlim]; [|done].
  split; [done|]. split.
  - etransitivity; [apply List.filter_length_le|]. rewrite length_take. lia.
  - apply Forall_forall. intros it Hit.
    apply list_elem_of_In, filter_In in Hit as [Hin Hpass].
    apply list_elem_of_In, subseteq_take in Hin. split; [done|].
    by apply is_substring_split.
Qed.

Lemma search_fallback_scans_titles_witness :
  has_index (without_indexes (loaded Fixture.papers)) (Some KeywordIndex) = false /\
  match search_papers_by_keyword (without_indexes (loaded Fixture.papers)) "Graphs" 50 with
  | Ok its =>
      (1 <= 50)%Z /\
      length its <= Z.to_nat 50 /\
      Forall (fun it => it ∈ stored (without_indexes (loaded Fixture.papers)) /\
                        exists a b, title it = a +:+ "Graphs" +:+ b) its
  | Raise e => (50 < 1)%Z /\ e = ParamValidationError
  end.
Proof.
  assert (H : has_index (without_indexes (loaded Fixture.papers)) (Some KeywordIndex) = false)
    by reflexivity.
  split; [exact H|].
  exact (search_fallback_scans_titles _ "Graphs" 50 H).
Defined.

(** The two ways to search a keyword disagree: the index knows the words of
    the abstract, lower-cased; the scan looks for the typed word in the
    title. *)
Example search_paths_disagree :
  arxiv_id <$> default [] (ok_or_none
    (search_papers_by_keyword (loaded Fixture.papers) "language" 50)) = ["2401.00002"] /\
  search_papers_by_keyword (without_indexes (loaded Fixture.papers)) "language" 50 = Ok [].
Proof. split; by vm_compute. Qed.

Lemma found_search_query t keyword limit :
  found t (search_query keyword limit) = found t (keyword_query keyword None).
Proof. reflexivity. Qed.

(** X15: with the index, the HTTP search and the command-line query list
    the same papers in opposite orders. On a loaded table, with a limit
    that is not below the number of index entries of the keyword, the items
    of [search_papers_by_keyword] (oldest first) project to the reverse of
    the results of [query_papers_by_keyword] (newest first). *)
Theorem search_reverses_by_keyword (rs : list record) (keyword : string) (limit : Z) :
  (1 <= limit)%Z ->
  (Z.of_nat (keyword_entries (loaded rs) keyword) <= limit)%Z ->
  exists its res,
    search_papers_by_keyword (loaded rs) keyword limit = Ok its /\
    outcome (query_papers_by_keyword (loaded rs) keyword limit) = Ok res /\
    project <$> its = reverse (results res).
Proof.
  intros Hlim Hsize. rewrite by_keyword_response by done.
  unfold search_papers_by_keyword, query, valid_limit.
  cbn [Limit IndexName range_between search_query valid_range].
  rewrite loaded_has_index.
  destruct (Z.leb_spec 1 limit) as [_|?]; [|lia]. simpl.
  eexists _, _. split_and!; [done|done|].
  unfold select. cbn [Limit ScanIndexForward IndexName search_query keyword_query].
  change (found (loaded rs) (keyword_query keyword (Some limit)))
    with (found (loaded rs) (keyword_query keyword None)).
  rewrite found_search_query.
  set (asc := merge_sort _ _).
  assert (Hlen : length asc <= Z.to_nat limit).
  { unfold asc. rewrite merge_sort_Permutation. unfold keyword_entries in Hsize. lia. }
  rewrite !take_ge by (rewrite ?length_reverse; done).
  unfold listing; cbn [results].
  by rewrite fmap_reverse, reverse_involutive.
Qed.

Lemma search_reverses_by_keyword_witness :
  exists its res,
    search_papers_by_keyword (loaded Fixture.papers) "graph" 10 = Ok its /\
    outcome (query_papers_by_keyword (loaded Fixture.papers) "graph" 10) = Ok res /\
    project <$> its = reverse (results res).
Proof.
  apply (search_reverses_by_keyword Fixture.papers "graph" 10).
  - lia.
  - apply Z.leb_le. vm_compute. reflexivity.
Defined.

(** *** The request handler *)

Lemma parsed_empty : parsed ∅.
Proof. intros name values H. by rewrite lookup_empty in H. Qed.

Lemma parsed_insert name v vs query : parsed query -> parsed (<[name := v :: vs]> query).
Proof.
  intros Hp n values. rewrite lookup_insert_Some.
  intros [[_ <-]|[_ H]]; [done|by eapply Hp].
Qed.

Lemma first_value_parsed query name :
  parsed query -> first_value query name = Some (parameter query name).
Proof.
  intros Hp. unfold first_value, parameter.
  destruct (query !! name) as [[|v vs]|] eqn:E; simpl; try done.
  by destruct (Hp _ _ E).
Qed.

Lemma limit_value_parsed query :
  parsed query ->
  limit_value query = Some (from_option LimitText DefaultLimit (parameter query "limit")).
Proof.
  intros Hp. unfold limit_value, parameter.
  destruct (query !! "limit") as [[|v vs]|] eqn:E; simpl; try done.
  by destruct (Hp _ _ E).
Qed.

Lemma present_parameter query name value :
  parameter query name = Some value -> value <> "" ->
  missing (parameter query name) = false /\ default "" (parameter query name) = value.
Proof. intros -> Hv. simpl. by rewrite String.eqb_neq. Qed.

Ltac by_cases_of_bind :=
  repeat match goal with
         | |- context [mbind _ ?x] => destruct x; simpl
         end.

(** X16: status 400 means that the required parameter is missing, and
    nothing else. On a parsed request, [do_GET] sends the error 400 with a
    message exactly when the path is one of the four endpoints and the
    parameter that this endpoint requires is absent or empty; the message
    then names the parameter. Neither the table nor the limit has a part in
    it: the check comes before [int(limit)] and before any call on the
    table. *)
Theorem bad_request_iff_parameter_missing
    (int : string -> option Z) (t : Table) (path : string)
    (query : gmap string (list string)) (message : string) :
  parsed query ->
  do_GET int t path query = SendError 400 message <->
  exists name, required_parameter path = Some name /\
               missing (parameter query name) = true /\
               message = "Missing '" +:+ name +:+ "' parameter".
Proof.
  intros Hp. unfold do_GET, route, required_parameter.
  rewrite !first_value_parsed, !limit_value_parsed by done.
  destruct (String.eqb path "/papers/recent");
    [|destruct (String.eqb path "/papers/author");
      [|destruct (String.eqb path "/papers/id");
        [|destruct (String.eqb path "/papers/search")]]]; simpl.
  5: { split; [done|]. by intros (name & [=] & _). }
  all: match goal with |- context [missing ?p] => destruct (missing p) eqn:Hm end; simpl.
  all: try (split; [intros [= <-]; eexists; by split_and!
                   |by intros (name & [= <-] & _ & ->)]).
  all: split; [|intros (name & [= <-] & Hm' & _); congruence].
  all: by_cases_of_bind; try done.
  by destruct (query_paper_by_id _ _).
Qed.

Lemma bad_request_iff_parameter_missing_witness :
  parsed Fixture.only_a_limit /\
  (do_GET decimal (loaded Fixture.papers) "/papers/search" Fixture.only_a_limit
     = SendError 400 "Missing 'keyword' parameter" <->
   exists name, required_parameter "/papers/search" = Some name /\
                missing (parameter Fixture.only_a_limit name) = true /\
                "Missing 'keyword' parameter" = "Missing '" +:+ name +:+ "' parameter").
Proof.
  assert (Hp : parsed Fixture.only_a_limit) by apply parsed_insert, parsed_empty.
  split; [exact Hp|].
  exact (bad_request_iff_parameter_missing decimal (loaded Fixture.papers)
           "/papers/search" Fixture.only_a_limit "Missing 'keyword' parameter" Hp).
Defined.

Lemma query_paper_by_id_loaded rs id :
  match query_paper_by_id (loaded rs) id with
  | Some it => exists r, r ∈ rs /\ rec_id r = id /\ it = id_entry r
  | None => id ∉ rec_id <$> rs
  end.
Proof.
  unfold query_paper_by_id, get_item.
  destruct (decide (id ∈ rec_id <$> rs)) as [Hin|Hout].
  - apply list_elem_of_fmap in Hin as (r & -> & Hr).
    destruct (canonical_stored rs r Hr) as (r' & Hr' & Hid & Hstored).
    rewrite Hstored. eauto.
  - destruct (items (loaded rs) !! ("ARXIV#" +:+ id, "ARXIV#" +:+ id)) as [it|] eqn:E; [|done].
    exfalso. assert (Hst : it ∈ stored (loaded rs)) by (apply stored_lookup; eauto).
    destruct (unknown_id_nothing_stored rs id it Hout Hst) as [Hpk _].
    apply loaded_lookup in E as [E _]. unfold primary_key in E. congruence.
Qed.

(** X17: the endpoint [/papers/id] on a loaded table. For a request whose
    [id] parameter is a non-empty text, [do_GET] sends the canonical item of
    a loaded record with that id when there is one, and the error 404
    "Paper not found" when no loaded record has the id; it never answers
    with status 500. *)
Theorem id_endpoint_finds_loaded_papers
    (int : string -> option Z) (rs : list record)
    (query : gmap string (list string)) (id : string) :
  parsed query -> parameter query "id" = Some id -> id <> "" ->
  match do_GET int (loaded rs) "/papers/id" query with
  | SendJsonItem it => exists r, r ∈ rs /\ rec_id r = id /\ it = id_entry r
  | SendError code message =>
      code = 404 /\ message = "Paper not found" /\ id ∉ rec_id <$> rs
  | _ => False
  end.
Proof.
  intros Hp Hid Hne. unfold do_GET, route. simpl.
  rewrite first_value_parsed by done. simpl.
  destruct (present_parameter _ _ _ Hid Hne) as [-> ->].
  pose proof (query_paper_by_id_loaded rs id) as H.
  by destruct (query_paper_by_id (loaded rs) id).
Qed.

Lemma id_endpoint_finds_loaded_papers_witness :
  parsed Fixture.second_paper /\
  parameter Fixture.second_paper "id" = Some "2401.00002" /\
  match do_GET decimal (loaded Fixture.papers) "/papers/id" Fixture.second_paper with
  | SendJsonItem it =>
      exists r, r ∈ Fixture.papers /\ rec_id r = "2401.00002" /\ it = id_entry r
  | SendError code message =>
      code = 404 /\ message = "Paper not found" /\ "2401.00002" ∉ rec_id <$> Fixture.papers
  | _ => False
  end.
Proof.
  assert (Hp : parsed Fixture.second_paper) by apply parsed_insert, parsed_empty.
  assert (Hid : parameter Fixture.second_paper "id" = Some "2401.00002") by reflexivity.
  assert (Hne : "2401.00002" <> "") by discriminate.
  split; [exact Hp|]. split; [exact Hid|].
  exact (id_endpoint_finds_loaded_papers decimal Fixture.papers Fixture.second_paper
           "2401.00002" Hp Hid Hne).
Defined.

(** X18: a limit that is no positive number. When the [limit] parameter of
    a parsed request is a text that [int] refuses, or a number below 1,
    the endpoints [/papers/recent] and [/papers/search] answer with status
    500, on any table, while [/papers/author] answers with the items of
    the scan: every stored item that lists the author. *)
Theorem bad_limit_fails_except_by_author
    (int : string -> option Z) (t : Table)
    (query : gmap string (list string)) (limit : LimitValue) :
  parsed query -> limit_value query = Some limit -> bad_limit int limit ->
  (missing (parameter query "category") = false ->
     do_GET int t "/papers/recent" query = ServerError) /\
  (missing (parameter query "keyword") = false ->
     do_GET int t "/papers/search" query = ServerError) /\
  (forall author, parameter query "name" = Some author -> author <> "" ->
     do_GET int t "/papers/author" query =
       SendJson (List.filter (passes (AuthorsContains author)) (stored t))).
Proof.
  intros Hp Hl Hbad. unfold bad_limit in Hbad. unfold do_GET, route. simpl.
  rewrite !first_value_parsed, Hl by done. simpl. split_and!.
  - intros ->. destruct (int_limit int limit) as [n|]; simpl; [|done].
    unfold query_recent_papers, Dynamo.query, valid_limit. simpl.
    by destruct (Z.leb_spec 1 n) as [?|_]; [lia|].
  - intros ->. destruct (int_limit int limit) as [n|]; simpl; [|done].
    unfold search_papers_by_keyword, scan_title, Dynamo.query, valid_limit. simpl.
    by destruct (Z.leb_spec 1 n) as [?|_]; [lia|].
  - intros author Ha Hne. destruct (present_parameter _ _ _ Ha Hne) as [-> ->].
    unfold by_author. destruct (int_limit int limit) as [n|]; simpl; [|done].
    unfold ApiServer.query_papers_by_author, Dynamo.query, valid_limit. simpl.
    by destruct (Z.leb_spec 1 n) as [?|_]; [lia|].
Qed.

Lemma bad_limit_fails_except_by_author_witness :
  parsed Fixture.limit_zero /\ limit_value Fixture.limit_zero = Some (LimitText "0") /\
  bad_limit decimal (LimitText "0") /\
  do_GET decimal (loaded Fixture.papers) "/papers/recent" Fixture.limit_zero = ServerError /\
  do_GET decimal (loaded Fixture.papers) "/papers/search" Fixture.limit_zero = ServerError /\
  do_GET decimal (loaded Fixture.papers) "/papers/author" Fixture.limit_zero =
    SendJson (List.filter (passes (AuthorsContains "N. Bohr")) (stored (loaded Fixture.papers))).
Proof.
  assert (Hp : parsed Fixture.limit_zero)
    by (repeat apply parsed_insert; apply parsed_empty).
  assert (Hl : limit_value Fixture.limit_zero = Some (LimitText "0")) by reflexivity.
  assert (Hbad : bad_limit decimal (LimitText "0")) by (vm_compute; reflexivity).
  destruct (bad_limit_fails_except_by_author decimal (loaded Fixture.papers)
              Fixture.limit_zero (LimitText "0") Hp Hl Hbad)
    as (Hrecent & Hsearch & Hauthor).
  split_and!; [exact Hp|exact Hl|exact Hbad| | |].
  - apply Hrecent. reflexivity.
  - apply Hsearch. reflexivity.
  - apply Hauthor; [reflexivity|discriminate].
Defined.

(** X19: the endpoint [/papers/author] on a loaded table answers every
    request that names an author, whatever its limit, with stored items
    that all list the author; when the limit is a number of at least 1
    there are at most that many. *)
Theorem author_endpoint_lists_the_author
    (int : string -> option Z) (rs : list record)
    (query : gmap string (list string)) (author : string) :
  parsed query -> parameter query "name" = Some author -> author <> "" ->
  exists its,
    do_GET int (loaded rs) "/papers/author" query = SendJson its /\
    Forall (fun it => it ∈ stored (loaded rs) /\ author ∈ authors it) its /\
    forall limit n, limit_value query = Some limit -> int_limit int limit = Some n ->
                    (1 <= n)%Z -> length its <= Z.to_nat n.
Proof.
  intros Hp Ha Hne. unfold do_GET, route. simpl.
  rewrite first_value_parsed, limit_value_parsed by done. simpl.
  destruct (present_parameter _ _ _ Ha Hne) as [-> ->].
  set (limit := from_option LimitText DefaultLimit (parameter query "limit")).
  assert (Hscan : Forall (fun it => it ∈ stored (loaded rs) /\ author ∈ authors it)
            (List.filter (passes (AuthorsContains author)) (stored (loaded rs)))).
  { apply Forall_forall. intros it [Hst Hpass]%list_elem_of_In%filter_In.
    split; [by apply list_elem_of_In|]. by apply bool_decide_eq_true in Hpass. }
  unfold by_author. destruct (int_limit int limit) as [n|] eqn:Hn; simpl.
  - destruct (Z.leb_spec 1 n) as [Hle|Hlt].
    + rewrite by_author_index by done. simpl. eexists. split_and!; [done| |].
      * apply Forall_forall. intros it Hin. pose proof Hin as Hsel.
        apply select_subset in Hin as [Hst [Hpk _]%matches_author].
        split; [done|].
        destruct (loaded_stored _ _ Hst) as [_ (r & Hr & Hit)].
        apply expand_cases in Hit as [(c & _ & ->)|[(a & Ha' & ->)|[(k & _ & ->)| ->]]];
          simpl in Hpk; try discriminate.
        injection Hpk as ->. done.
      * intros l m [= <-] Hm Hge. assert (m = n) as -> by congruence.
        unfold select. simpl. rewrite length_take. lia.
    + unfold ApiServer.query_papers_by_author, Dynamo.query, valid_limit. simpl.
      destruct (Z.leb_spec 1 n) as [?|_]; [lia|]. simpl.
      eexists. split_and!; [done|done|].
      intros l m [= <-] Hm Hge. assert (m = n) as -> by congruence. lia.
  - eexists. split_and!; [done|done|]. intros l m [= <-] Hm. congruence.
Qed.

Lemma author_endpoint_lists_the_author_witness :
  parsed Fixture.einstein_five /\
  parameter Fixture.einstein_five "name" = Some "A. Einstein" /\
  exists its,
    do_GET decimal (loaded Fixture.eleven_papers) "/papers/author" Fixture.einstein_five
      = SendJson its /\
    Forall (fun it => it ∈ stored (loaded Fixture.eleven_papers) /\
                      "A. Einstein" ∈ authors it) its /\
    forall limit n, limit_value Fixture.einstein_five = Some limit ->
                    int_limit decimal limit = Some n ->
                    (1 <= n)%Z -> length its <= Z.to_nat n.
Proof.
  assert (Hp : parsed Fixture.einstein_five)
    by (repeat apply parsed_insert; apply parsed_empty).
  assert (Ha : parameter Fixture.einstein_five "name" = Some "A. Einstein") by reflexivity.
  assert (Hne : "A. Einstein" <> "") by discriminate.
  split; [exact Hp|]. split; [exact Ha|].
  exact (author_endpoint_lists_the_author decimal Fixture.eleven_papers
           Fixture.einstein_five "A. Einstein" Hp Ha Hne).
Defined.

Example author_endpoint_limit_five :
  exists its,
    do_GET decimal (loaded Fixture.eleven_papers) "/papers/author" Fixture.einstein_five
      = SendJson its /\
    length its = 5.
Proof. eexists. split; by vm_compute. Qed.

End HttpServerFacts.
